(** * Order lifecycle of the Shopping-app backend

    A shallow embedding of the order, payment, catalog and shipping route
    handlers of the Express/Mongoose backend:
    - [src/backend/routes/order.js]   (place, update, cancel, pay, vendor status)
    - [src/unnamed/part_000]          (payment confirm, refund, webhook)
    - [src/backend/models/Product.js] (product update, delete, stock patch)
    - [src/routes/shipping.js]        (shipping cost calculation)
    - [src/models/Order.js]           (order schema, defaults)
    - [src/unnamed/part_001]          (admin analytics: revenue, units sold)
    - [src/unnamed/part_000]          (payment intent, registration)
    - [src/routes/shipping.js]        (order tracking, saved addresses)
    - [src/routes/notifications.js]   (notification delete, cart add/remove)
    - [src/backend/models/Product.js] (product creation, offer patch)
    - the route tables of order.js, Product.js and notifications.js, with
      Express's first-match dispatch

    Modelling choices:
    - The Mongo collections are finite maps from document ids ([nat]) to
      records ([gmap]); a handler is a function from the store to the new
      store and a response, so writes made before an error stay visible.
    - JS numbers used as money are exact rationals [Q]; stock counts and
      quantities are integers [Z].
    - A request field that is absent ([undefined]) is [None]; Mongoose (6
      and later) drops [undefined] keys from an update document, so such a
      field is left as it was.
    - Error responses are named after the spec's error kinds; each
      constructor notes the HTTP status and message of the source. *)

From Stdlib Require Import QArith ZArith String Lqa.
From stdpp Require Import base gmap list.

(* ------------------------------------------------------------------ *)
(** ** Data model *)

Inductive Role := role_customer | role_vendor | role_admin.

(** The caller, as re-fetched by [User.findById(req.user.userId)]. *)
Record User := mkUser { user_id : nat; role : Role }.

(** [productSchema]: the fields the order logic reads. *)
Record Product := mkProduct {
  price : Q;
  offer : Q;       (* discount percentage, default 0 *)
  stock : Z;       (* default 0 *)
  vendor : nat
}.

Definition set_stock (pr : Product) (s : Z) : Product :=
  mkProduct (price pr) (offer pr) s (vendor pr).

(** [orderSchema.status] enum. *)
Inductive OrderStatus := pending | paid | shipped | delivered | cancelled | refunded.

(** [orderSchema.paymentStatus] enum. *)
Inductive PaymentStatus := ps_pending | ps_paid | ps_failed | ps_refunded.

#[global] Instance OrderStatus_eq_dec : EqDecision OrderStatus.
Proof. solve_decision. Defined.
#[global] Instance PaymentStatus_eq_dec : EqDecision PaymentStatus.
Proof. solve_decision. Defined.
#[global] Instance Role_eq_dec : EqDecision Role.
Proof. solve_decision. Defined.

(** [orderItemSchema]. *)
Record OrderItem := mkOrderItem {
  product : nat;
  quantity : Z;
  priceAtPurchase : Q
}.

(** [orderSchema] (timestamps, trackingNumber and notes are not read). *)
Record Order := mkOrder {
  customer : nat;
  items : list OrderItem;
  total : Q;
  status : OrderStatus;
  shippingAddress : string;
  paymentMethod : string;
  paymentStatus : PaymentStatus
}.

Definition set_status (o : Order) (s : OrderStatus) : Order :=
  mkOrder (customer o) (items o) (total o) s (shippingAddress o)
    (paymentMethod o) (paymentStatus o).

(** The two collections the handlers touch. *)
Record DB := mkDB {
  products : gmap nat Product;
  orders : gmap nat Order
}.

(** Error responses. *)
Inductive Err :=
| Forbidden          (* 403 *)
| InvalidInput       (* 400: missing or invalid request field *)
| NotFound           (* 404 *)
| InsufficientStock  (* 400 'Insufficient stock for ...' *)
| InvalidTransition  (* 400: order not in a state the route accepts *)
| Internal.          (* 500: a thrown error caught by the handler *)

#[global] Instance Err_eq_dec : EqDecision Err.
Proof. solve_decision. Defined.

(* ------------------------------------------------------------------ *)
(** ** POST /orders (order.js, lines 9-53) *)

(** One element of [req.body.items]. *)
Record ReqItem := mkReqItem { req_product : nat; req_quantity : Z }.

(** The [for (const item of items)] loop, with its loop state [total] and
    [orderItems]; each product is re-read from the store, and its
    decremented stock is written back before the next item. *)
Fixpoint place_items (ps : gmap nat Product) (its : list ReqItem)
    (total : Q) (orderItems : list OrderItem)
    : gmap nat Product * (Err + (list OrderItem * Q)) :=
  match its with
  | [] => (ps, inr (orderItems, total))
  | item :: rest =>
      match ps !! req_product item with
      | None => (ps, inl NotFound)
      | Some pr =>
          if (stock pr <? req_quantity item)%Z then (ps, inl InsufficientStock)
          else
            let discount := offer pr in
            let p := (price pr * (1 - discount / 100))%Q in
            let orderItems' :=
              orderItems ++ [mkOrderItem (req_product item) (req_quantity item) p] in
            let total' := (total + p * inject_Z (req_quantity item))%Q in
            let ps' :=
              <[req_product item := set_stock pr (stock pr - req_quantity item)]> ps in
            place_items ps' rest total' orderItems'
      end
  end.

(** [new Order({customer, items, total, shippingAddress})] with the schema
    defaults for status, paymentMethod and paymentStatus. *)
Definition new_order (u : User) (ois : list OrderItem) (tot : Q) (addr : string) : Order :=
  mkOrder (user_id u) ois tot pending addr "cash_on_delivery" ps_pending.

(** The handler. [oid] is the id Mongoose assigns to the new document;
    saving under an id already taken throws (duplicate key), answered 500. *)
Definition place_order (db : DB) (u : User) (its : list ReqItem) (addr : string)
    (oid : nat) : DB * (Err + Order) :=
  match role u with
  | role_customer =>
      match its with
      | [] => (db, inl InvalidInput)
      | _ :: _ =>
          let '(ps', r) := place_items (products db) its 0 [] in
          match r with
          | inl e => (mkDB ps' (orders db), inl e)
          | inr (ois, tot) =>
              match orders db !! oid with
              | Some _ => (mkDB ps' (orders db), inl Internal)
              | None =>
                  let o := new_order u ois tot addr in
                  (mkDB ps' (<[oid := o]> (orders db)), inr o)
              end
          end
      end
  | _ => (db, inl Forbidden)
  end.

(* ------------------------------------------------------------------ *)
(** ** Order status routes (order.js) *)

(** [Product.find({vendor: user._id, _id: {$in: productIds}})] is non-empty:
    some line of the order refers to an existing product of the caller. *)
Definition vendor_owns_line (ps : gmap nat Product) (u : User) (o : Order) : bool :=
  existsb (fun it =>
             match ps !! product it with
             | Some pr => bool_decide (vendor pr = user_id u)
             | None => false
             end) (items o).

(** PATCH /orders/:id/pay (lines 210-229):
    [Order.findOne({_id, customer: user._id})], then the pending check. *)
Definition pay_order (db : DB) (u : User) (id : nat) : DB * (Err + unit) :=
  match role u with
  | role_customer =>
      match orders db !! id with
      | Some o =>
          if bool_decide (customer o = user_id u) then
            match status o with
            | pending => (mkDB (products db) (<[id := set_status o paid]> (orders db)), inr tt)
            | _ => (db, inl InvalidTransition)
            end
          else (db, inl NotFound)
      | None => (db, inl NotFound)
      end
  | _ => (db, inl Forbidden)
  end.

(** [validStatuses.includes(status)]. The requested status is an
    [OrderStatus]; other request values fail the same test. *)
Definition vendor_valid_status (s : OrderStatus) : bool :=
  match s with
  | shipped | delivered | cancelled => true
  | _ => false
  end.

(** PATCH /orders/:id/status (lines 232-256). *)
Definition vendor_update_status (db : DB) (u : User) (id : nat) (s : OrderStatus)
    : DB * (Err + unit) :=
  match role u with
  | role_vendor =>
      if negb (vendor_valid_status s) then (db, inl InvalidInput)
      else
        match orders db !! id with
        | Some o =>
            if vendor_owns_line (products db) u o then
              (mkDB (products db) (<[id := set_status o s]> (orders db)), inr tt)
            else (db, inl NotFound)
        | None => (db, inl NotFound)
        end
  | _ => (db, inl Forbidden)
  end.

(** The fields of the PUT /orders/:id body that are written. *)
Record AdminUpdate := mkAdminUpdate {
  upd_status : option OrderStatus;
  upd_total : option Q;
  upd_shippingAddress : option string
}.

Definition apply_admin_update (o : Order) (upd : AdminUpdate) : Order :=
  mkOrder (customer o) (items o)
    (default (total o) (upd_total upd))
    (default (status o) (upd_status upd))
    (default (shippingAddress o) (upd_shippingAddress upd))
    (paymentMethod o) (paymentStatus o).

(** PUT /orders/:id (lines 86-108): [findByIdAndUpdate(id, {status, total,
    shippingAddress})], admin only. *)
Definition admin_update_order (db : DB) (u : User) (id : nat) (upd : AdminUpdate)
    : DB * (Err + unit) :=
  match role u with
  | role_admin =>
      match orders db !! id with
      | Some o => (mkDB (products db) (<[id := apply_admin_update o upd]> (orders db)), inr tt)
      | None => (db, inl NotFound)
      end
  | _ => (db, inl Forbidden)
  end.

(** The permission checks of DELETE /orders/:id (lines 121-131). *)
Definition cancel_authorized (ps : gmap nat Product) (u : User) (o : Order) : bool :=
  match role u with
  | role_customer => bool_decide (customer o = user_id u)
  | role_vendor => vendor_owns_line ps u o
  | role_admin => true
  end.

(** [for (const item of order.items) Product.findByIdAndUpdate(item.product,
    {$inc: {stock: item.quantity}})]; a missing product is left missing. *)
Fixpoint restore_stock (ps : gmap nat Product) (ois : list OrderItem) : gmap nat Product :=
  match ois with
  | [] => ps
  | it :: rest =>
      restore_stock (alter (fun pr => set_stock pr (stock pr + quantity it)%Z) (product it) ps) rest
  end.

(** DELETE /orders/:id (lines 111-152). *)
Definition cancel_order (db : DB) (u : User) (id : nat) : DB * (Err + unit) :=
  match orders db !! id with
  | None => (db, inl NotFound)
  | Some o =>
      if negb (cancel_authorized (products db) u o) then (db, inl Forbidden)
      else
        match status o with
        | pending | paid =>
            let ps' :=
              match status o with
              | paid => restore_stock (products db) (items o)
              | _ => products db
              end in
            (mkDB ps' (<[id := set_status o cancelled]> (orders db)), inr tt)
        | _ => (db, inl InvalidTransition)
        end
  end.

(* ------------------------------------------------------------------ *)
(** ** Payment routes (part_000) *)

(** POST /payments/confirm (lines 52-89). [!paymentIntentId] holds for the
    empty string. *)
Definition confirm_payment (db : DB) (u : User) (paymentIntentId : string) (id : nat)
    : DB * (Err + unit) :=
  if String.eqb paymentIntentId "" then (db, inl InvalidInput)
  else
    match orders db !! id with
    | None => (db, inl NotFound)
    | Some o =>
        if negb (bool_decide (customer o = user_id u)) then (db, inl Forbidden)
        else
          let o' := mkOrder (customer o) (items o) (total o) paid
                      (shippingAddress o) "card" ps_paid in
          (mkDB (products db) (<[id := o']> (orders db)), inr tt)
    end.

(** POST /payments/refund (lines 92-145). [!amount] holds for 0; the
    comparisons are [amount > order.total] and [amount === order.total]. *)
Definition refund_order (db : DB) (u : User) (id : nat) (amount : Q) : DB * (Err + unit) :=
  if Qeq_bool amount 0 then (db, inl InvalidInput)
  else
    match orders db !! id with
    | None => (db, inl NotFound)
    | Some o =>
        if negb (bool_decide (role u = role_admin))
           && negb (bool_decide (customer o = user_id u)) then (db, inl Forbidden)
        else if negb (bool_decide (paymentStatus o = ps_paid)) then (db, inl InvalidTransition)
        else if negb (Qle_bool amount (total o)) then (db, inl InvalidInput)
        else
          let o' :=
            if Qeq_bool amount (total o) then
              mkOrder (customer o) (items o) (total o) refunded
                (shippingAddress o) (paymentMethod o) ps_refunded
            else o in
          (mkDB (products db) (<[id := o']> (orders db)), inr tt)
    end.

(** The events POST /payments/webhook (lines 181-215) reacts to;
    [orderId] is [data.object.metadata.orderId] when present. *)
Inductive WebhookEvent :=
| wh_succeeded (orderId : option nat)
| wh_failed (orderId : option nat)
| wh_other.

(** [Order.findByIdAndUpdate] on a missing id changes nothing. *)
Definition webhook (db : DB) (ev : WebhookEvent) : DB * (Err + unit) :=
  match ev with
  | wh_succeeded (Some id) =>
      (mkDB (products db)
         (alter (fun o => mkOrder (customer o) (items o) (total o) paid
                            (shippingAddress o) (paymentMethod o) ps_paid) id (orders db)),
       inr tt)
  | wh_failed (Some id) =>
      (mkDB (products db)
         (alter (fun o => mkOrder (customer o) (items o) (total o) (status o)
                            (shippingAddress o) (paymentMethod o) ps_failed) id (orders db)),
       inr tt)
  | _ => (db, inr tt)
  end.

(* ------------------------------------------------------------------ *)
(** ** Product routes (Product.js) *)

(** The fields of the PUT /products/:id body the order logic reads. *)
Record ProductUpdate := mkProductUpdate {
  pu_price : option Q;
  pu_offer : option Q;
  pu_stock : option Z
}.

Definition apply_product_update (pr : Product) (upd : ProductUpdate) : Product :=
  mkProduct (default (price pr) (pu_price upd)) (default (offer pr) (pu_offer upd))
    (default (stock pr) (pu_stock upd)) (vendor pr).

(** The filter of [findOneAndUpdate]/[findOneAndDelete]: a vendor matches
    only its own products, an admin any product. *)
Definition product_match (u : User) (pr : Product) : bool :=
  match role u with
  | role_vendor => bool_decide (vendor pr = user_id u)
  | role_admin => true
  | role_customer => false
  end.

(** PUT /products/:id (lines 181-211). *)
Definition update_product (db : DB) (u : User) (pid : nat) (upd : ProductUpdate)
    : DB * (Err + unit) :=
  match role u with
  | role_customer => (db, inl Forbidden)
  | _ =>
      match products db !! pid with
      | Some pr =>
          if product_match u pr then
            (mkDB (<[pid := apply_product_update pr upd]> (products db)) (orders db), inr tt)
          else (db, inl NotFound)
      | None => (db, inl NotFound)
      end
  end.

(** DELETE /products/:id (lines 214-239). *)
Definition delete_product (db : DB) (u : User) (pid : nat) : DB * (Err + unit) :=
  match role u with
  | role_customer => (db, inl Forbidden)
  | _ =>
      match products db !! pid with
      | Some pr =>
          if product_match u pr then (mkDB (delete pid (products db)) (orders db), inr tt)
          else (db, inl NotFound)
      | None => (db, inl NotFound)
      end
  end.

(** PATCH /products/:id/stock (lines 242-265). *)
Definition patch_stock (db : DB) (u : User) (pid : nat) (s : Z) : DB * (Err + unit) :=
  match role u with
  | role_vendor =>
      if (s <? 0)%Z then (db, inl InvalidInput)
      else
        match products db !! pid with
        | Some pr =>
            if bool_decide (vendor pr = user_id u) then
              (mkDB (<[pid := set_stock pr s]> (products db)) (orders db), inr tt)
            else (db, inl NotFound)
        | None => (db, inl NotFound)
        end
  | _ => (db, inl Forbidden)
  end.

(* ------------------------------------------------------------------ *)
(** ** All writing operations on the store *)

Inductive Op :=
| OpPlaceOrder (u : User) (its : list ReqItem) (addr : string) (oid : nat)
| OpPay (u : User) (id : nat)
| OpVendorStatus (u : User) (id : nat) (s : OrderStatus)
| OpConfirm (u : User) (paymentIntentId : string) (id : nat)
| OpAdminUpdate (u : User) (id : nat) (upd : AdminUpdate)
| OpCancel (u : User) (id : nat)
| OpRefund (u : User) (id : nat) (amount : Q)
| OpWebhook (ev : WebhookEvent)
| OpUpdateProduct (u : User) (pid : nat) (upd : ProductUpdate)
| OpDeleteProduct (u : User) (pid : nat)
| OpPatchStock (u : User) (pid : nat) (s : Z).

Definition run_op (db : DB) (op : Op) : DB * (Err + unit) :=
  match op with
  | OpPlaceOrder u its addr oid =>
      let '(db', r) := place_order db u its addr oid in
      (db', match r with inl e => inl e | inr _ => inr tt end)
  | OpPay u id => pay_order db u id
  | OpVendorStatus u id s => vendor_update_status db u id s
  | OpConfirm u pi id => confirm_payment db u pi id
  | OpAdminUpdate u id upd => admin_update_order db u id upd
  | OpCancel u id => cancel_order db u id
  | OpRefund u id amount => refund_order db u id amount
  | OpWebhook ev => webhook db ev
  | OpUpdateProduct u pid upd => update_product db u pid upd
  | OpDeleteProduct u pid => delete_product db u pid
  | OpPatchStock u pid s => patch_stock db u pid s
  end.

(** The one operation whose request carries a [total]. *)
Definition op_writes_total (op : Op) : bool :=
  match op with
  | OpAdminUpdate _ _ upd => bool_decide (is_Some (upd_total upd))
  | _ => false
  end.

(* ------------------------------------------------------------------ *)
(** ** POST /shipping/calculate (shipping.js, lines 8-67) *)

(** One element of [req.body.items]; [price] may be absent. *)
Record ShipItem := mkShipItem { si_price : option Q; si_quantity : Z }.

Record Rate := mkRate { base : Q; perKg : Q; maxDays : nat }.

(** The keys a plain object literal inherits from [Object.prototype] in
    Node.js. Looking one of them up in [shippingRates] finds a function (or,
    for ["__proto__"], [Object.prototype] itself): a truthy value that has
    no [base], [perKg] or [maxDays]. *)
Definition object_prototype_keys : list string :=
  ["constructor"; "__defineGetter__"; "__defineSetter__"; "hasOwnProperty";
   "__lookupGetter__"; "__lookupSetter__"; "isPrototypeOf"; "propertyIsEnumerable";
   "toString"; "valueOf"; "__proto__"; "toLocaleString"]%string.

(** What [shippingRates[m]] finds: one of the three rates, or an inherited
    member. *)
Inductive RateLookup := own_rate (r : Rate) | inherited_member.

(** The [shippingRates] object, read at a string key. *)
Definition shippingRates (m : string) : option RateLookup :=
  if String.eqb m "standard" then Some (own_rate (mkRate (599 # 100) (5 # 2) 7))
  else if String.eqb m "express" then Some (own_rate (mkRate (1299 # 100) 4 3))
  else if String.eqb m "overnight" then Some (own_rate (mkRate (2499 # 100) 6 1))
  else if existsb (String.eqb m) object_prototype_keys then Some inherited_member
  else None.

Definition standard_rate : Rate := mkRate (599 # 100) (5 # 2) 7.

(** The accumulation loop: [totalWeight += itemWeight * item.quantity] and
    [totalValue += (item.price || 0) * item.quantity]. *)
Fixpoint ship_totals (its : list ShipItem) (totalWeight totalValue : Q) : Q * Q :=
  match its with
  | [] => (totalWeight, totalValue)
  | item :: rest =>
      let itemWeight := (1 # 2)%Q in
      ship_totals rest (totalWeight + itemWeight * inject_Z (si_quantity item))%Q
        (totalValue + default 0 (si_price item) * inject_Z (si_quantity item))%Q
  end.

(** The answer. A cost of [NaN] (serialised as [null]) is [None]; an
    [estimatedDays] that is [undefined] (left out of the JSON) is [None]. *)
Record ShipQuote := mkShipQuote {
  shippingCost : option Q;
  estimatedDays : option nat;
  freeShipping : bool
}.

(** The handler; [shippingMethod] defaults to ["standard"]. [!destination]
    holds for a missing and for an empty destination. For an inherited
    member, [rate.base + totalWeight * rate.perKg] is [undefined + NaN],
    that is [NaN]. *)
Definition shipping_calculate (its : list ShipItem) (destination : option string)
    (shippingMethod : option string) : Err + ShipQuote :=
  match its with
  | [] => inl InvalidInput
  | _ :: _ =>
      match destination with
      | None => inl InvalidInput
      | Some d =>
          if String.eqb d "" then inl InvalidInput
          else
            let '(totalWeight, totalValue) := ship_totals its 0 0 in
            let m := default "standard"%string shippingMethod in
            let rate := default (own_rate standard_rate) (shippingRates m) in
            let shippingCost :=
              match rate with
              | own_rate r => Some (base r + totalWeight * perKg r)%Q
              | inherited_member => None
              end in
            let days := match rate with own_rate r => Some (maxDays r) | inherited_member => None end in
            let free := negb (Qle_bool totalValue 50) in
            inr (mkShipQuote (if free then Some 0%Q else shippingCost) days free)
      end
  end.

(* ------------------------------------------------------------------ *)
(** ** Quantities as the spec states them *)

(** The order total in the spec's words: the sum over the request's lines
    of [price × (1 − offer/100) × quantity], prices read before the order. *)
Fixpoint spec_total (ps : gmap nat Product) (its : list ReqItem) : Q :=
  match its with
  | [] => 0%Q
  | it :: rest =>
      ((match ps !! req_product it with
        | Some pr => price pr * (1 - offer pr / 100) * inject_Z (req_quantity it)
        | None => 0
        end) + spec_total ps rest)%Q
  end.

(** The line the spec prescribes for a request item. *)
Definition spec_line (ps : gmap nat Product) (it : ReqItem) (l : OrderItem) : Prop :=
  product l = req_product it /\ quantity l = req_quantity it /\
  exists pr, ps !! req_product it = Some pr /\
             priceAtPurchase l = (price pr * (1 - offer pr / 100))%Q.

(** Sum of the quantities requested for product [p]. *)
Fixpoint sumq (p : nat) (its : list ReqItem) : Z :=
  match its with
  | [] => 0%Z
  | it :: rest => ((if decide (req_product it = p) then req_quantity it else 0) + sumq p rest)%Z
  end.

(** Sum of the quantities of the order lines for product [p]. *)
Fixpoint line_sumq (p : nat) (ois : list OrderItem) : Z :=
  match ois with
  | [] => 0%Z
  | it :: rest => ((if decide (product it = p) then quantity it else 0) + line_sumq p rest)%Z
  end.

Definition is_terminal (s : OrderStatus) : bool :=
  match s with
  | delivered | cancelled | refunded => true
  | _ => false
  end.

(** The shipping quantities in the spec's words: the total quantity, and
    the subtotal [sum of price × quantity] (an absent price counts 0). *)
Fixpoint spec_quantity_sum (its : list ShipItem) : Q :=
  match its with
  | [] => 0%Q
  | it :: rest => (inject_Z (si_quantity it) + spec_quantity_sum rest)%Q
  end.

Fixpoint spec_subtotal (its : list ShipItem) : Q :=
  match its with
  | [] => 0%Q
  | it :: rest => (default 0 (si_price it) * inject_Z (si_quantity it) + spec_subtotal rest)%Q
  end.

(* ------------------------------------------------------------------ *)
(** ** GET /admin/analytics (part_001, lines 178-212) *)

(** [{$match: {status: {$in: ['paid', 'delivered']}}}]. *)
Definition revenue_counted (s : OrderStatus) : bool :=
  match s with
  | paid | delivered => true
  | _ => false
  end.

(** [totalRevenue[0]?.total || 0]: [$group] sums [total] over the matched
    orders; with no match the pipeline gives [[]] and the answer is 0. *)
Definition totalRevenue (os : gmap nat Order) : Q :=
  map_fold (fun _ o acc => if revenue_counted (status o) then (total o + acc)%Q else acc)
    0%Q os.

(** The share of one order in [totalRevenue]. *)
Definition rev_contrib (o : Order) : Q :=
  if revenue_counted (status o) then total o else 0%Q.

(** [totalSold] of product [p] in [topProducts]: [$unwind] the lines of
    every order, whatever its status, and [$sum] the quantities of the
    lines of [p] (the per-order sum is [line_sumq]). *)
Definition totalSold (p : nat) (os : gmap nat Order) : Z :=
  map_fold (fun _ o acc => (line_sumq p (items o) + acc)%Z) 0%Z os.

(* ------------------------------------------------------------------ *)
(** ** Route dispatch of the Express routers *)

Inductive Method := GET | POST | PUT | PATCH | DELETE.

(** A segment of a route path: a literal, or a [:name] parameter. *)
Inductive Seg := lit (s : string) | param.

Record Route := mkRoute { r_method : Method; r_path : list Seg }.

#[global] Instance Method_eq_dec : EqDecision Method.
Proof. solve_decision. Defined.
#[global] Instance Seg_eq_dec : EqDecision Seg.
Proof. solve_decision. Defined.
#[global] Instance Route_eq_dec : EqDecision Route.
Proof. solve_decision. Defined.

Definition ascii_lower (c : Ascii.ascii) : Ascii.ascii :=
  let n := Ascii.nat_of_ascii c in
  if Nat.leb 65 n && Nat.leb n 90 then Ascii.ascii_of_nat (n + 32) else c.

Fixpoint string_lower (s : string) : string :=
  match s with
  | EmptyString => EmptyString
  | String c s' => String (ascii_lower c) (string_lower s')
  end.

(** The regular expression Express compiles a route path to (case
    insensitive, trailing slash optional): a literal segment matches
    itself up to case, a parameter any non-empty segment. A request path
    is given by its segments. *)
Fixpoint path_match (pat : list Seg) (path : list string) : bool :=
  match pat, path with
  | [], [] => true
  | lit s :: pat', x :: path' =>
      String.eqb (string_lower s) (string_lower x) && path_match pat' path'
  | param :: pat', x :: path' => negb (String.eqb x "") && path_match pat' path'
  | _, _ => false
  end.

Definition route_matches (r : Route) (m : Method) (path : list string) : bool :=
  bool_decide (r_method r = m) && path_match (r_path r) path.

(** The first registered route that matches handles the request: none of
    the handlers below calls [next()]. *)
Fixpoint dispatch (rs : list Route) (m : Method) (path : list string) : option Route :=
  match rs with
  | [] => None
  | r :: rs' => if route_matches r m path then Some r else dispatch rs' m path
  end.

(** order.js, in registration order (lines 9, 56, 86, 111, 155, 178, 192,
    210, 232). *)
Definition order_routes : list Route :=
  [mkRoute POST []; mkRoute GET [param]; mkRoute PUT [param]; mkRoute DELETE [param];
   mkRoute GET [lit "status"; param]; mkRoute GET [lit "mine"]; mkRoute GET [lit "vendor"];
   mkRoute PATCH [param; lit "pay"]; mkRoute PATCH [param; lit "status"]].

(** The product router of Product.js (lines 37, 62, 115, 128, 144, 155,
    166, 180, 214, 242, 271, 290, 315). *)
Definition product_routes : list Route :=
  [mkRoute POST []; mkRoute GET []; mkRoute GET [param];
   mkRoute GET [lit "search"; param]; mkRoute GET [lit "category"; param];
   mkRoute GET [lit "vendor"; param]; mkRoute GET [lit "mine"];
   mkRoute PUT [param]; mkRoute DELETE [param]; mkRoute PATCH [param; lit "stock"];
   mkRoute GET [lit "out-of-stock"]; mkRoute PATCH [param; lit "offer"];
   mkRoute POST [param; lit "images"]].

(** notifications.js (lines 7, 25, 52, 73, 95). *)
Definition notification_routes : list Route :=
  [mkRoute GET []; mkRoute PATCH [param; lit "read"]; mkRoute PATCH [lit "read-all"];
   mkRoute DELETE [param]; mkRoute DELETE [lit "clear"]].

(* ------------------------------------------------------------------ *)
(** ** Notification routes (notifications.js, lines 1-111) *)

Record Notification := mkNotification { n_id : string; isRead : bool }.

Definition is_hex_digit (c : Ascii.ascii) : bool :=
  let n := Ascii.nat_of_ascii c in
  (Nat.leb 48 n && Nat.leb n 57) || (Nat.leb 97 n && Nat.leb n 102).

(** The text [_id.toString()] of an ObjectId: 24 lower-case hex digits. *)
Definition is_object_id (s : string) : bool :=
  Nat.eqb (String.length s) 24 && forallb is_hex_digit (list_ascii_of_string s).

(** DELETE /notifications/:id (lines 73-93) on the caller's notifications:
    [user.notifications.filter(n => n._id.toString() !== notificationId)]. *)
Definition delete_notification (ns : list Notification) (notificationId : string)
    : list Notification :=
  List.filter (fun n => negb (String.eqb (n_id n) notificationId)) ns.

(* ------------------------------------------------------------------ *)
(** ** Shipping addresses (shipping.js, lines 167-357) *)

(** An element of [user.addresses]; [addr_id] is its [_id]. The user
    schema gives the array path the default [[]], so [!user.addresses]
    never holds for a found user, and the handlers are modelled on that
    array. *)
Record Address := mkAddress {
  addr_id : nat;
  street : string;
  city : string;
  state : string;
  zipCode : string;
  country : string;
  phone : option string;
  isDefault : bool
}.

Definition set_default (a : Address) (b : bool) : Address :=
  mkAddress (addr_id a) (street a) (city a) (state a) (zipCode a) (country a) (phone a) b.

(** The body of POST /shipping/address; [isDefault = false] by default. *)
Record AddressReq := mkAddressReq {
  req_street : string;
  req_city : string;
  req_state : string;
  req_zipCode : string;
  req_country : string;
  req_phone : option string;
  req_isDefault : bool
}.

(** POST /shipping/address (lines 167-221); [aid] is the [_id] Mongoose
    gives the pushed sub-document. An empty string is falsy. *)
Definition save_address (addrs : list Address) (req : AddressReq) (aid : nat)
    : Err + list Address :=
  if String.eqb (req_street req) "" || String.eqb (req_city req) ""
     || String.eqb (req_state req) "" || String.eqb (req_zipCode req) ""
     || String.eqb (req_country req) ""
  then inl InvalidInput
  else
    let make_default := match addrs with [] => true | _ :: _ => req_isDefault req end in
    let addrs' := if make_default then map (fun a => set_default a false) addrs else addrs in
    let address :=
      mkAddress aid (req_street req) (req_city req) (req_state req) (req_zipCode req)
        (req_country req) (req_phone req) (if make_default then true else req_isDefault req) in
    inr (addrs' ++ [address]).

(** DELETE /shipping/addresses/:id (lines 295-324). *)
Definition delete_address (addrs : list Address) (id : nat) : Err + list Address :=
  match list_find (fun a => addr_id a = id) addrs with
  | None => inl NotFound
  | Some (addressIndex, deletedAddress) =>
      let rest := delete addressIndex addrs in
      if isDefault deletedAddress then
        match rest with
        | a0 :: tl => inr (set_default a0 true :: tl)
        | [] => inr []
        end
      else inr rest
  end.

(** PATCH /shipping/addresses/:id/default (lines 327-357). *)
Definition set_default_address (addrs : list Address) (id : nat) : Err + list Address :=
  match list_find (fun a => addr_id a = id) addrs with
  | None => inl NotFound
  | Some (addressIndex, _) =>
      inr (alter (fun a => set_default a true) addressIndex
             (map (fun a => set_default a false) addrs))
  end.

(** Number of addresses flagged as default. *)
Definition default_count (addrs : list Address) : nat :=
  length (List.filter isDefault addrs).

(* ------------------------------------------------------------------ *)
(** ** Cart routes (the cart router, notifications.js lines 113-195) *)

(** A line of a cart; [ci_product] is the text [i.product.toString()] of
    the stored ObjectId, which the handlers compare with the request. *)
Record CartItem := mkCartItem { ci_product : string; ci_quantity : Z }.

(** Mongoose's cast of a request value to an ObjectId, read back through
    [toString()]; [None] when the cast throws. Which strings besides the
    24-hex-digit ones it accepts depends on the driver version (older ones
    also read a 12-character string as raw bytes), so the cart routes take
    the cast as an argument, with the two laws every version satisfies. *)
Definition object_id_cast_ok (cast : string -> option string) : Prop :=
  (forall s, is_object_id s = true -> cast s = Some s) /\
  (forall s t, cast s = Some t -> is_object_id t = true).

(** The cast of 24 hex digits in either case, the one all versions share. *)
Definition hex24_cast (s : string) : option string :=
  if is_object_id (string_lower s) then Some (string_lower s) else None.

(** [findIndex(i => i.product.toString() === product)], then [+=] on that
    line or [push({product, quantity})], which casts the request value;
    [None] when that cast fails and [cart.save()] throws. *)
Definition add_line (cast : string -> option string) (cart : list CartItem) (product : string)
    (quantity : Z) : option (list CartItem) :=
  match list_find (fun i => String.eqb (ci_product i) product = true) cart with
  | Some (itemIndex, i) =>
      Some (<[itemIndex := mkCartItem (ci_product i) (ci_quantity i + quantity)]> cart)
  | None =>
      match cast product with
      | Some p => Some (cart ++ [mkCartItem p quantity])
      | None => None
      end
  end.

(** POST /cart/add (lines 135-159); the carts are keyed by customer, a
    missing cart is created empty. [!product] holds for a missing and an
    empty product, [!quantity] for 0; a failed save is answered 500. *)
Definition cart_add (cast : string -> option string) (carts : gmap nat (list CartItem)) (u : User)
    (product : option string) (quantity : Z) : gmap nat (list CartItem) * (Err + list CartItem) :=
  match role u with
  | role_customer =>
      match product with
      | None => (carts, inl InvalidInput)
      | Some pid =>
          if String.eqb pid "" || (quantity =? 0)%Z || (quantity <? 1)%Z
          then (carts, inl InvalidInput)
          else
            let cart := default [] (carts !! user_id u) in
            match add_line cast cart pid quantity with
            | Some cart' => (<[user_id u := cart']> carts, inr cart')
            | None => (carts, inl Internal)
            end
      end
  | _ => (carts, inl Forbidden)
  end.

(** POST /cart/remove (lines 161-177):
    [filter(i => i.product.toString() !== product)]; a missing product
    equals no line. *)
Definition cart_remove (carts : gmap nat (list CartItem)) (u : User) (product : option string)
    : gmap nat (list CartItem) * (Err + list CartItem) :=
  match role u with
  | role_customer =>
      match carts !! user_id u with
      | None => (carts, inl NotFound)
      | Some cart =>
          let cart' :=
            List.filter (fun i => match product with
                                  | Some pid => negb (String.eqb (ci_product i) pid)
                                  | None => true
                                  end) cart in
          (<[user_id u := cart']> carts, inr cart')
      end
  | _ => (carts, inl Forbidden)
  end.

(** Quantity of the product printed [p] over the lines of a cart. *)
Fixpoint cart_qty (p : string) (cart : list CartItem) : Z :=
  match cart with
  | [] => 0%Z
  | i :: rest => ((if String.eqb (ci_product i) p then ci_quantity i else 0) + cart_qty p rest)%Z
  end.

(** Every line of a cart holds a stored ObjectId. *)
Definition cart_ids_ok (cart : list CartItem) : Prop :=
  Forall (fun i => is_object_id (ci_product i) = true) cart.

(** No cart holds two lines of the same product. *)
Definition carts_ok (carts : gmap nat (list CartItem)) : Prop :=
  map_Forall (fun _ cart => NoDup (map ci_product cart)) carts.

(* ------------------------------------------------------------------ *)
(** ** GET /shipping/track/:orderId (shipping.js, lines 103-164) *)

Record TrackingUpdate := mkTrackingUpdate { tu_status : string; tu_location : string }.

Record TrackingInfo := mkTrackingInfo {
  ti_orderId : nat;
  ti_status : OrderStatus;
  updates : list TrackingUpdate
}.

(** The handler. The updates pushed for a shipped or delivered order read
    [location: destination], a name bound nowhere in the handler's scope:
    the [ReferenceError] is caught and answered 500. *)
Definition track_order (db : DB) (u : User) (orderId : nat) : Err + TrackingInfo :=
  match orders db !! orderId with
  | None => inl NotFound
  | Some o =>
      if bool_decide (role u = role_customer) && negb (bool_decide (customer o = user_id u))
      then inl Forbidden
      else
        let updates := [mkTrackingUpdate "Order Placed" "Warehouse";
                        mkTrackingUpdate "Processing" "Warehouse"] in
        match status o with
        | shipped | delivered => inl Internal
        | s => inr (mkTrackingInfo orderId s updates)
        end
  end.

(* ------------------------------------------------------------------ *)
(** ** POST /payments/create-intent (part_000, lines 8-49) *)

Record PaymentIntent := mkPaymentIntent {
  pi_amount : Q;
  currency : string;
  pi_orderId : nat
}.

(** [amount * 100] and [currency = 'USD'] by default; the generated ids
    are not modelled. [!amount] holds for 0. *)
Definition create_intent (db : DB) (u : User) (orderId : option nat) (amount : Q)
    (currency : option string) : Err + PaymentIntent :=
  match orderId with
  | None => inl InvalidInput
  | Some id =>
      if Qeq_bool amount 0 then inl InvalidInput
      else
        match orders db !! id with
        | None => inl NotFound
        | Some o =>
            if negb (bool_decide (customer o = user_id u)) then inl Forbidden
            else if negb (bool_decide (status o = pending)) then inl InvalidTransition
            else inr (mkPaymentIntent (amount * 100) (default "USD"%string currency) id)
        end
  end.

(* ------------------------------------------------------------------ *)
(** ** POST /auth/register (part_000, lines 228-261) *)

(** A stored user document (password and phone are not modelled). *)
Record Account := mkAccount { acc_username : string; acc_email : string; acc_role : Role }.

(** [User.findOne({$or: [{email}, {username}]})], then [new User({...,
    role, ...})] with the role of the body; the answer is a token for the
    new id and role. [uid] is the new document's id. *)
Definition register (accounts : gmap nat Account) (username email : string) (role : Role)
    (uid : nat) : gmap nat Account * (Err + User) :=
  if existsb (fun ka => String.eqb (acc_email ka.2) email || String.eqb (acc_username ka.2) username)
       (map_to_list accounts)
  then (accounts, inl InvalidInput)
  else
    match accounts !! uid with
    | Some _ => (accounts, inl Internal)
    | None => (<[uid := mkAccount username email role]> accounts, inr (mkUser uid role))
    end.

(** No two accounts share an email or a username. *)
Definition accounts_unique (accounts : gmap nat Account) : Prop :=
  forall k1 k2 a1 a2, accounts !! k1 = Some a1 -> accounts !! k2 = Some a2 -> k1 <> k2 ->
  acc_email a1 <> acc_email a2 /\ acc_username a1 <> acc_username a2.

(* ------------------------------------------------------------------ *)
(** ** Further product routes (Product.js) *)

(** POST /products (lines 37-60): [vendor: user._id], [offer || 0],
    [stock || 0]; [pid] is the new document's id. *)
Definition create_product (db : DB) (u : User) (price : Q) (offer : option Q)
    (stock : option Z) (pid : nat) : DB * (Err + Product) :=
  match role u with
  | role_customer => (db, inl Forbidden)
  | _ =>
      match products db !! pid with
      | Some _ => (db, inl Internal)
      | None =>
          let pr := mkProduct price (default 0%Q offer) (default 0%Z stock) (user_id u) in
          (mkDB (<[pid := pr]> (products db)) (orders db), inr pr)
      end
  end.

(** PATCH /products/:id/offer (lines 290-313). *)
Definition patch_offer (db : DB) (u : User) (pid : nat) (offer : Q) : DB * (Err + unit) :=
  match role u with
  | role_vendor =>
      if negb (Qle_bool 0 offer) || negb (Qle_bool offer 100) then (db, inl InvalidInput)
      else
        match products db !! pid with
        | Some pr =>
            if bool_decide (vendor pr = user_id u) then
              (mkDB (<[pid := mkProduct (price pr) offer (stock pr) (vendor pr)]> (products db))
                 (orders db), inr tt)
            else (db, inl NotFound)
        | None => (db, inl NotFound)
        end
  | _ => (db, inl Forbidden)
  end.

(** The operations that may create an order. *)
Definition is_place_op (op : Op) : bool :=
  match op with
  | OpPlaceOrder _ _ _ _ => true
  | _ => false
  end.

(* ------------------------------------------------------------------ *)
(** ** Concrete stores used by the witnesses and counterexamples *)

(** Product 1: price 10, offer 20%, stock 5, vendor 7.
    Product 2: price 3, no offer, stock 1, vendor 8. No product 3. *)
Definition example_products : gmap nat Product :=
  <[1 := mkProduct 10 20 5 7]> (<[2 := mkProduct 3 0 1 8]> ∅).

Definition example_db : DB := mkDB example_products ∅.

Definition example_customer : User := mkUser 42 role_customer.

Definition example_admin : User := mkUser 1 role_admin.

(** An order of customer 42 for 2 units of product 1 (at 8) and 1 unit of
    product 2 (at 3), with the given status, payment status and total. *)
Definition example_order (s : OrderStatus) (pst : PaymentStatus) (tot : Q) : Order :=
  mkOrder 42 [mkOrderItem 1 2 8; mkOrderItem 2 1 3] tot s "addr" "card" pst.

(** The example products and one order, stored under id 5. *)
Definition example_db_with (o : Order) : DB := mkDB example_products (<[5 := o]> ∅).

(** The vendor of product 1. *)
Definition example_vendor : User := mkUser 7 role_vendor.

Definition example_paid_db : DB := example_db_with (example_order paid ps_paid 19).

(** A default and a second address of one user. *)
Definition example_addresses : list Address :=
  [mkAddress 1 "1 Main St" "Springfield" "IL" "62701" "US" None true;
   mkAddress 2 "2 Oak Ave" "Springfield" "IL" "62702" "US" None false].

Definition example_address_req : AddressReq :=
  mkAddressReq "3 Elm Rd" "Springfield" "IL" "62703" "US" None true.

Definition example_notifications : list Notification :=
  [mkNotification "65a1f0c2e4b0a1b2c3d4e5f6" false;
   mkNotification "65a1f0c2e4b0a1b2c3d4e5f7" true].

(** Customer 42 has one line of 2 units of product 1 in the cart. *)
Definition example_carts : gmap nat (list CartItem) :=
  <[42 := [mkCartItem "65a1f0c2e4b0a1b2c3d4e501" 2]]> ∅.

Definition example_accounts : gmap nat Account :=
  <[1 := mkAccount "root" "root@example.com" role_admin]> ∅.

(* ------------------------------------------------------------------ *)
(** ** Lemmas on the placing loop *)

Lemma set_stock_set_stock pr a b : set_stock (set_stock pr a) b = set_stock pr b.
Proof. by destruct pr. Qed.

Lemma place_items_app ps l1 l2 t acc :
  place_items ps (l1 ++ l2) t acc =
  match place_items ps l1 t acc with
  | (ps1, inl e) => (ps1, inl e)
  | (ps1, inr (acc1, t1)) => place_items ps1 l2 t1 acc1
  end.
Proof.
  revert ps t acc. induction l1 as [|it l1 IH]; intros ps t acc; simpl; [done|].
  destruct (ps !! req_product it) as [pr|]; [|done].
  destruct (stock pr <? req_quantity it)%Z; [done|]. apply IH.
Qed.

Lemma place_items_frame ps its t acc k :
  k ∉ map req_product its -> (place_items ps its t acc).1 !! k = ps !! k.
Proof.
  revert ps t acc. induction its as [|it its IH]; intros ps t acc Hk; simpl; [done|].
  destruct (ps !! req_product it) as [pr|]; [|done].
  destruct (stock pr <? req_quantity it)%Z; [done|].
  simpl in Hk. apply not_elem_of_cons in Hk as [Hne Hk].
  rewrite IH by done. by rewrite lookup_insert_ne.
Qed.

(** After a successful loop each product has lost the quantities asked
    for it; missing products stay missing. *)
Lemma place_items_stock ps its t acc ps' r :
  place_items ps its t acc = (ps', inr r) ->
  forall p, ps' !! p = (fun pr => set_stock pr (stock pr - sumq p its)%Z) <$> ps !! p.
Proof.
  revert ps t acc. induction its as [|it its IH]; intros ps t acc Hrun p; simpl in *.
  - inversion Hrun; subst. destruct (ps' !! p) as [pr|]; simpl; [|done].
    f_equal. destruct pr; unfold set_stock; simpl. f_equal. lia.
  - destruct (ps !! req_product it) as [pr0|] eqn:E0; [|done].
    destruct (stock pr0 <? req_quantity it)%Z; [done|].
    rewrite (IH _ _ _ Hrun p).
    destruct (decide (req_product it = p)) as [<-|Hne].
    + rewrite lookup_insert_eq, E0. simpl. rewrite set_stock_set_stock.
      f_equal. unfold set_stock. f_equal. simpl. lia.
    + rewrite lookup_insert_ne by done.
      destruct (ps !! p); simpl; [|done]. by rewrite Z.add_0_l.
Qed.

(** A successful loop leaves every product it touched with stock >= 0,
    and keeps stock >= 0 where it was. *)
Lemma place_items_stock_nonneg ps its t acc ps' r :
  place_items ps its t acc = (ps', inr r) ->
  forall p, (p ∈ map req_product its \/ exists pr, ps !! p = Some pr /\ (0 <= stock pr)%Z) ->
  exists pr', ps' !! p = Some pr' /\ (0 <= stock pr')%Z.
Proof.
  revert ps t acc. induction its as [|it its IH]; intros ps t acc Hrun p Hp; simpl in *.
  - inversion Hrun; subst. destruct Hp as [Hp|Hp]; [set_solver|done].
  - destruct (ps !! req_product it) as [pr0|] eqn:E0; [|done].
    destruct (stock pr0 <? req_quantity it)%Z eqn:Elt; [done|].
    apply Z.ltb_ge in Elt.
    apply (IH _ _ _ Hrun).
    destruct (decide (req_product it = p)) as [->|Hne].
    + right. rewrite lookup_insert_eq. eexists; split; [done|]. simpl. lia.
    + destruct Hp as [Hp|Hp].
      * apply elem_of_cons in Hp as [Hp|Hp]; [congruence|by left].
      * right. by rewrite lookup_insert_ne.
Qed.

Lemma spec_total_ext ps1 ps2 its :
  (forall it, In it its -> ps1 !! req_product it = ps2 !! req_product it) ->
  spec_total ps1 its = spec_total ps2 its.
Proof.
  induction its as [|it its IH]; intros Hs; simpl; [done|].
  rewrite (Hs it) by (left; done). f_equal. apply IH. intros it' Hin. apply Hs. by right.
Qed.

Lemma Forall2_spec_line_ext ps1 ps2 its ls :
  (forall it, In it its -> ps1 !! req_product it = ps2 !! req_product it) ->
  Forall2 (spec_line ps1) its ls -> Forall2 (spec_line ps2) its ls.
Proof.
  intros Hs Hf. induction Hf as [|it l its ls Hl Hf IH]; constructor.
  - destruct Hl as (Hp & Hq & pr & Hpr & Hprice).
    rewrite (Hs it) in Hpr by (left; done). unfold spec_line; eauto.
  - apply IH. intros it' Hin. apply Hs. by right.
Qed.

Lemma in_map_req_product it its : In it its -> req_product it ∈ map req_product its.
Proof. intros Hin. apply list_elem_of_In. by apply in_map. Qed.

Lemma sumq_not_in p its : p ∉ map req_product its -> sumq p its = 0%Z.
Proof.
  induction its as [|it its IH]; intros Hp; simpl in *; [done|].
  apply not_elem_of_cons in Hp as [Hne Hp].
  rewrite decide_False by congruence. rewrite IH by done. done.
Qed.

Lemma sumq_distinct it its :
  NoDup (map req_product its) -> In it its -> sumq (req_product it) its = req_quantity it.
Proof.
  induction its as [|it0 its IH]; intros Hnd Hin; simpl in *; [done|].
  apply NoDup_cons in Hnd as [Hnotin Hnd].
  destruct Hin as [<-|Hin].
  - rewrite decide_True by done. rewrite sumq_not_in by done. lia.
  - rewrite decide_False.
    + rewrite IH by done. lia.
    + intros Heq. apply Hnotin. rewrite Heq. by apply in_map_req_product.
Qed.

(** With pairwise distinct products, each available in the requested
    quantity, the loop runs to the end; its lines and total are the ones
    the spec prescribes from the prices read before the order. *)
Lemma place_items_distinct ps its t acc :
  NoDup (map req_product its) ->
  Forall (fun it => exists pr, ps !! req_product it = Some pr /\
                               (req_quantity it <= stock pr)%Z) its ->
  exists ps' lines tot',
    place_items ps its t acc = (ps', inr (acc ++ lines, tot')) /\
    Forall2 (spec_line ps) its lines /\
    (tot' == t + spec_total ps its)%Q.
Proof.
  revert ps t acc. induction its as [|it its IH]; intros ps t acc Hnd Hall; simpl.
  - exists ps, [], t. rewrite app_nil_r. split; [done|]. split; [constructor|]. ring.
  - inversion Hall as [|? ? [pr0 [E0 Hq]] Hrest]; subst. rewrite E0.
    assert ((stock pr0 <? req_quantity it)%Z = false) as -> by (apply Z.ltb_ge; lia).
    simpl in Hnd. apply NoDup_cons in Hnd as [Hnotin Hnd].
    set (ps1 := <[req_product it := set_stock pr0 (stock pr0 - req_quantity it)%Z]> ps).
    assert (Hsame : forall it', In it' its -> ps1 !! req_product it' = ps !! req_product it').
    { intros it' Hin. apply lookup_insert_ne. intros Heq. apply Hnotin.
      rewrite Heq. by apply in_map_req_product. }
    edestruct (IH ps1) as (ps' & lines & tot' & Hrun & Hl & Ht); [done| |].
    { apply Forall_forall. intros it' Hin. rewrite Hsame by (by apply list_elem_of_In).
      by eapply Forall_forall in Hrest. }
    eexists ps', (_ :: lines), tot'. split; [|split].
    + rewrite Hrun, <- app_assoc. done.
    + constructor.
      * unfold spec_line; simpl. eauto.
      * eapply Forall2_spec_line_ext; [|exact Hl]. done.
    + rewrite Ht, (spec_total_ext ps1 ps its Hsame). ring.
Qed.

Lemma place_items_lines ps its t acc ps' acc' t' :
  place_items ps its t acc = (ps', inr (acc', t')) ->
  map quantity acc' = map quantity acc ++ map req_quantity its.
Proof.
  revert ps t acc. induction its as [|it its IH]; intros ps t acc Hrun; simpl in *.
  - inversion Hrun; subst. by rewrite app_nil_r.
  - destruct (ps !! req_product it) as [pr0|]; [|done].
    destruct (stock pr0 <? req_quantity it)%Z; [done|].
    rewrite (IH _ _ _ Hrun), map_app, <- app_assoc. done.
Qed.

Lemma place_order_customer db u its addr oid :
  role u = role_customer -> its <> [] ->
  place_order db u its addr oid =
  let '(ps', r) := place_items (products db) its 0 [] in
  match r with
  | inl e => (mkDB ps' (orders db), inl e)
  | inr (ois, tot) =>
      match orders db !! oid with
      | Some _ => (mkDB ps' (orders db), inl Internal)
      | None => let o := new_order u ois tot addr in
                (mkDB ps' (<[oid := o]> (orders db)), inr o)
      end
  end.
Proof. intros Hr Hne. unfold place_order. rewrite Hr. by destruct its. Qed.

(** The first item that fails ends the request with its error; the stock
    written for the items before it stays written. *)
Lemma place_order_first_failure db u pre it post addr oid ps1 r e :
  role u = role_customer ->
  place_items (products db) pre 0 [] = (ps1, inr r) ->
  (ps1 !! req_product it = None /\ e = NotFound) \/
  (exists pr, ps1 !! req_product it = Some pr /\ (stock pr < req_quantity it)%Z /\
              e = InsufficientStock) ->
  place_order db u (pre ++ it :: post) addr oid = (mkDB ps1 (orders db), inl e).
Proof.
  intros Hr Hrun Hfail. rewrite place_order_customer by (done || by destruct pre).
  rewrite place_items_app, Hrun. destruct r as [acc1 t1]. simpl.
  destruct Hfail as [[-> ->] | (pr & -> & Hlt & ->)]; [done|].
  by rewrite (proj2 (Z.ltb_lt _ _) Hlt).
Qed.

Lemma place_order_error_orders db u its addr oid db' e :
  place_order db u its addr oid = (db', inl e) -> orders db' = orders db.
Proof.
  unfold place_order. destruct (role u); try (intros H; by inversion H).
  destruct its as [|it its]; [intros H; by inversion H|].
  destruct (place_items (products db) (it :: its) 0 []) as [ps' [e'|[ois tot]]];
    [intros H; by inversion H|].
  destruct (orders db !! oid); intros H; by inversion H.
Qed.

(* ------------------------------------------------------------------ *)
(** ** Claims on POST /orders *)

(** C1 (amended). For a request by a customer whose items reference
    pairwise distinct existing products, each with quantity at most the
    product's stock, the handler persists an order with status [pending]
    and payment status [pending], whose lines carry [priceAtPurchase =
    price × (1 − offer/100)] and whose total is the sum over the lines of
    [price × (1 − offer/100) × quantity]; each referenced product's stock
    decreases by exactly its ordered quantity and no other product changes. *)
Theorem place_order_distinct_ok (db : DB) (u : User) (its : list ReqItem)
    (addr : string) (oid : nat) :
  role u = role_customer -> its <> [] -> orders db !! oid = None ->
  NoDup (map req_product its) ->
  Forall (fun it => exists pr, products db !! req_product it = Some pr /\
                               (req_quantity it <= stock pr)%Z) its ->
  exists ps' o,
    place_order db u its addr oid = (mkDB ps' (<[oid := o]> (orders db)), inr o) /\
    status o = pending /\ paymentStatus o = ps_pending /\ customer o = user_id u /\
    Forall2 (spec_line (products db)) its (items o) /\
    (total o == spec_total (products db) its)%Q /\
    (forall it pr, In it its -> products db !! req_product it = Some pr ->
       ps' !! req_product it = Some (set_stock pr (stock pr - req_quantity it)%Z)) /\
    (forall k, k ∉ map req_product its -> ps' !! k = products db !! k).
Proof.
  intros Hr Hne Hfresh Hnd Hall.
  rewrite place_order_customer by done.
  destruct (place_items_distinct (products db) its 0 [] Hnd Hall)
    as (ps' & lines & tot' & Hrun & Hl & Ht).
  rewrite Hrun. simpl. rewrite Hfresh.
  exists ps', (new_order u lines tot' addr). split; [done|].
  repeat split; simpl; try done.
  - rewrite Ht. ring.
  - intros it pr Hin Hpr.
    rewrite (place_items_stock _ _ _ _ _ _ Hrun), Hpr. simpl.
    by rewrite sumq_distinct.
  - intros k Hk. pose proof (place_items_frame (products db) its 0 [] k Hk) as Hf.
    by rewrite Hrun in Hf.
Qed.

Lemma place_order_distinct_ok_witness :
  exists ps' o,
    place_order example_db example_customer [mkReqItem 1 2; mkReqItem 2 1] "addr" 0 =
      (mkDB ps' (<[0 := o]> ∅), inr o) /\ status o = pending.
Proof.
  destruct (place_order_distinct_ok example_db example_customer
              [mkReqItem 1 2; mkReqItem 2 1] "addr" 0)
    as (ps' & o & Heq & Hst & _); [reflexivity | discriminate | reflexivity | | |].
  - repeat constructor; set_solver.
  - repeat constructor; eexists; (split; [reflexivity | simpl; lia]).
  - exists ps', o. split; [exact Heq | exact Hst].
Defined.

(** C1 counterexample: both items ask for 1 unit of product 2, whose
    stock is 1; each quantity is at most the stock, yet the second item is
    checked against the stock the first one left (0) and the request fails. *)
Lemma place_order_repeated_product_cex :
  (forall it, In it [mkReqItem 2 1; mkReqItem 2 1] ->
     exists pr, products example_db !! req_product it = Some pr /\
                (req_quantity it <= stock pr)%Z) /\
  snd (place_order example_db example_customer [mkReqItem 2 1; mkReqItem 2 1] "addr" 0)
    = inl InsufficientStock.
Proof.
  split; [|reflexivity].
  intros it [<-|[<-|[]]]; eexists; (split; [reflexivity | simpl; lia]).
Qed.

(** C2. When the items before some item [it] went through the loop and
    [it] fails the product-exists or the stock check, the request returns
    that error, persists no order, and keeps the store in which the earlier
    items' stock is already decremented by their quantities. *)
Theorem place_order_partial_failure_keeps_stock (db : DB) (u : User)
    (pre : list ReqItem) (it : ReqItem) (post : list ReqItem) (addr : string)
    (oid : nat) (ps1 : gmap nat Product) (r : list OrderItem * Q) (e : Err) :
  role u = role_customer ->
  place_items (products db) pre 0 [] = (ps1, inr r) ->
  (ps1 !! req_product it = None /\ e = NotFound) \/
  (exists pr, ps1 !! req_product it = Some pr /\ (stock pr < req_quantity it)%Z /\
              e = InsufficientStock) ->
  place_order db u (pre ++ it :: post) addr oid = (mkDB ps1 (orders db), inl e) /\
  (forall p, ps1 !! p = (fun pr => set_stock pr (stock pr - sumq p pre)%Z) <$> products db !! p).
Proof.
  intros Hr Hrun Hfail. split.
  - by eapply place_order_first_failure.
  - exact (place_items_stock _ _ _ _ _ _ Hrun).
Qed.

Lemma place_order_partial_failure_keeps_stock_witness :
  exists ps1,
    place_order example_db example_customer [mkReqItem 1 2; mkReqItem 3 1] "addr" 0 =
      (mkDB ps1 ∅, inl NotFound) /\ stock <$> ps1 !! 1 = Some 3%Z.
Proof.
  destruct (place_order_partial_failure_keeps_stock example_db example_customer
              [mkReqItem 1 2] (mkReqItem 3 1) [] "addr" 0 _ _ NotFound
              eq_refl eq_refl (or_introl (conj eq_refl eq_refl))) as [Heq Hst].
  eexists. split; [exact Heq|]. rewrite Hst. reflexivity.
Defined.

(** C7 (amended). Order creation by a customer fails with [InvalidInput]
    on an empty item list; otherwise the items are checked in order and
    the first one that references a missing product fails with [NotFound],
    or whose quantity exceeds the product's current stock (after the
    decrements of the items before it) fails with [InsufficientStock]; no
    failure persists an order. *)
Theorem place_order_errors (db : DB) (u : User) (its : list ReqItem)
    (addr : string) (oid : nat) :
  role u = role_customer ->
  (its = [] -> place_order db u its addr oid = (db, inl InvalidInput)) /\
  (forall pre it post ps1 r e,
     its = pre ++ it :: post ->
     place_items (products db) pre 0 [] = (ps1, inr r) ->
     (ps1 !! req_product it = None /\ e = NotFound) \/
     (exists pr, ps1 !! req_product it = Some pr /\
                 (stock pr < req_quantity it)%Z /\ e = InsufficientStock) ->
     snd (place_order db u its addr oid) = inl e) /\
  (forall db' e, place_order db u its addr oid = (db', inl e) -> orders db' = orders db).
Proof.
  intros Hr. split; [|split].
  - intros ->. unfold place_order. by rewrite Hr.
  - intros pre it post ps1 r e -> Hrun Hfail.
    by rewrite (place_order_first_failure db u pre it post addr oid ps1 r e Hr Hrun Hfail).
  - apply place_order_error_orders.
Qed.

Lemma place_order_errors_witness :
  place_order example_db example_customer [] "addr" 0 = (example_db, inl InvalidInput).
Proof.
  destruct (place_order_errors example_db example_customer [] "addr" 0 eq_refl) as [H _].
  exact (H eq_refl).
Defined.

(** C7 counterexample: item 2 references a missing product (3), but the
    first item asks for 5 units of product 2 (stock 1), so the request
    fails with [InsufficientStock], not [NotFound]. *)
Lemma place_order_missing_product_cex :
  products example_db !! 3 = None /\
  snd (place_order example_db example_customer [mkReqItem 2 5; mkReqItem 3 1] "addr" 0)
    = inl InsufficientStock.
Proof. split; reflexivity. Qed.

(** C8 (amended). After a successful order creation every referenced
    product exists with stock >= 0; the persisted lines carry the requested
    quantities unvalidated, and each product's stock is its old stock minus
    the sum of the quantities requested for it (so a negative quantity
    raises the stock). *)
Theorem place_order_stock_nonneg (db : DB) (u : User) (its : list ReqItem)
    (addr : string) (oid : nat) (db' : DB) (o : Order) :
  place_order db u its addr oid = (db', inr o) ->
  (forall it, In it its ->
     exists pr', products db' !! req_product it = Some pr' /\ (0 <= stock pr')%Z) /\
  map quantity (items o) = map req_quantity its /\
  (forall p, products db' !! p =
     (fun pr => set_stock pr (stock pr - sumq p its)%Z) <$> products db !! p).
Proof.
  unfold place_order. destruct (role u); try (intros H; by inversion H).
  destruct its as [|it0 its0]; [intros H; by inversion H|].
  destruct (place_items (products db) (it0 :: its0) 0 []) as [ps' [e'|[ois tot]]] eqn:Hrun;
    [intros H; by inversion H|].
  destruct (orders db !! oid); intros H; inversion H; subst; clear H.
  simpl. split; [|split].
  - intros it Hin. eapply place_items_stock_nonneg; [exact Hrun|].
    left. by apply in_map_req_product.
  - exact (place_items_lines _ _ _ _ _ _ _ Hrun).
  - exact (place_items_stock _ _ _ _ _ _ Hrun).
Qed.

Lemma place_order_stock_nonneg_witness :
  exists db' o,
    place_order example_db example_customer [mkReqItem 1 2] "addr" 0 = (db', inr o) /\
    map quantity (items o) = [2%Z].
Proof.
  eexists _, _. split; [reflexivity|].
  refine (proj1 (proj2 (place_order_stock_nonneg example_db example_customer
                          [mkReqItem 1 2] "addr" 0 _ _ eq_refl))).
Defined.

(** C8 counterexample: a line with quantity -3 passes the stock check
    ([5 < -3] is false), is persisted with quantity -3 < 1, and raises the
    stock of product 1 from 5 to 8. *)
Lemma place_order_negative_quantity_cex :
  let '(db', r) := place_order example_db example_customer [mkReqItem 1 (-3)] "addr" 0 in
  match r with
  | inr o => map quantity (items o) = [(-3)%Z]
  | inl _ => False
  end /\
  stock <$> products example_db !! 1 = Some 5%Z /\
  stock <$> products db' !! 1 = Some 8%Z.
Proof. vm_compute. repeat split. Qed.

(* ------------------------------------------------------------------ *)
(** ** Claims on cancellation, refund and the order state *)

Lemma restore_stock_lookup ps ois p :
  restore_stock ps ois !! p =
  (fun pr => set_stock pr (stock pr + line_sumq p ois)%Z) <$> ps !! p.
Proof.
  revert ps. induction ois as [|it ois IH]; intros ps; simpl.
  - destruct (ps !! p) as [pr|]; simpl; [|done].
    destruct pr; unfold set_stock; simpl. do 2 f_equal. lia.
  - rewrite IH, lookup_alter. case_decide as Hd.
    + subst p. rewrite ?decide_True by done.
      destruct (ps !! product it); simpl; [|done].
      rewrite set_stock_set_stock. unfold set_stock. simpl. do 2 f_equal. lia.
    + rewrite ?decide_False by done.
      destruct (ps !! p); simpl; [|done]. by rewrite ?Z.add_0_l.
Qed.

(** C4. For an authorized caller: cancelling a [paid] order sets it to
    [cancelled] and adds to each product's stock the quantities of the
    order's lines for it; cancelling a [pending] order sets it to
    [cancelled] and leaves every stock as it was; cancelling a [delivered],
    [cancelled] or [refunded] order fails with [InvalidTransition] and
    changes nothing. *)
Theorem cancel_order_stock (db : DB) (u : User) (id : nat) (o : Order) :
  orders db !! id = Some o -> cancel_authorized (products db) u o = true ->
  (status o = paid ->
   exists ps', cancel_order db u id = (mkDB ps' (<[id := set_status o cancelled]> (orders db)), inr tt) /\
     forall p, ps' !! p =
       (fun pr => set_stock pr (stock pr + line_sumq p (items o))%Z) <$> products db !! p) /\
  (status o = pending ->
   cancel_order db u id = (mkDB (products db) (<[id := set_status o cancelled]> (orders db)), inr tt)) /\
  (is_terminal (status o) = true -> cancel_order db u id = (db, inl InvalidTransition)).
Proof.
  intros Ho Hauth. unfold cancel_order. rewrite Ho, Hauth. simpl.
  split; [|split].
  - intros ->. eexists. split; [reflexivity|]. apply restore_stock_lookup.
  - intros ->. reflexivity.
  - by destruct (status o).
Qed.

Lemma cancel_order_stock_witness :
  exists ps',
    cancel_order (example_db_with (example_order paid ps_paid 19)) example_customer 5 =
      (mkDB ps' (<[5 := set_status (example_order paid ps_paid 19) cancelled]>
                   (<[5 := example_order paid ps_paid 19]> ∅)), inr tt) /\
    stock <$> ps' !! 1 = Some 7%Z.
Proof.
  destruct (cancel_order_stock (example_db_with (example_order paid ps_paid 19))
              example_customer 5 (example_order paid ps_paid 19) eq_refl eq_refl)
    as [Hpaid _].
  destruct (Hpaid eq_refl) as (ps' & Heq & Hst).
  exists ps'. split; [exact Heq|]. rewrite Hst. reflexivity.
Defined.

(** C5 (amended). A refund is accepted only when the order's payment
    status is [paid] and the amount is non-zero and at most the total; an
    amount above the total is rejected with the store unchanged; an
    authorized refund of a paid order whose non-zero amount equals the
    total sets both [status] and [paymentStatus] to [refunded]. *)
Theorem refund_rules (db : DB) (u : User) (id : nat) (amount : Q) :
  (forall db', refund_order db u id amount = (db', inr tt) ->
     exists o, orders db !! id = Some o /\ paymentStatus o = ps_paid /\
               (amount <= total o)%Q /\ ~ (amount == 0)%Q) /\
  (forall o, orders db !! id = Some o -> (total o < amount)%Q ->
     exists e, refund_order db u id amount = (db, inl e)) /\
  (forall o, orders db !! id = Some o ->
     (role u = role_admin \/ customer o = user_id u) ->
     paymentStatus o = ps_paid -> (amount == total o)%Q -> ~ (amount == 0)%Q ->
     exists o', refund_order db u id amount = (mkDB (products db) (<[id := o']> (orders db)), inr tt) /\
                status o' = refunded /\ paymentStatus o' = ps_refunded /\
                items o' = items o /\ total o' = total o).
Proof.
  unfold refund_order. split; [|split].
  - intros db' H. destruct (Qeq_bool amount 0) eqn:Ez; [by inversion H|].
    destruct (orders db !! id) as [o|]; [|by inversion H].
    exists o. split; [done|].
    destruct (negb _ && negb _); [by inversion H|].
    destruct (bool_decide (paymentStatus o = ps_paid)) eqn:Ep; simpl in H; [|by inversion H].
    destruct (Qle_bool amount (total o)) eqn:El; simpl in H; [|by inversion H].
    split; [by apply bool_decide_eq_true in Ep|]. split; [by apply Qle_bool_iff|].
    intros Hz. apply Qeq_bool_iff in Hz. congruence.
  - intros o Ho Hlt. destruct (Qeq_bool amount 0); [eauto|]. rewrite Ho.
    destruct (negb _ && negb _); [eauto|].
    destruct (negb (bool_decide _)); [eauto|].
    assert (Qle_bool amount (total o) = false) as ->.
    { apply not_true_iff_false. intros Hle. apply Qle_bool_iff in Hle. apply (Qlt_not_le _ _ Hlt Hle). }
    simpl. eauto.
  - intros o Ho Hauth Hp Heq Hnz.
    assert (Qeq_bool amount 0 = false) as ->.
    { apply not_true_iff_false. intros Hz. by apply Qeq_bool_iff in Hz. }
    rewrite Ho.
    assert (negb (bool_decide (role u = role_admin)) && negb (bool_decide (customer o = user_id u)) = false) as ->.
    { destruct Hauth as [Ha|Ha].
      - by rewrite (bool_decide_eq_true_2 (role u = role_admin) Ha).
      - rewrite (bool_decide_eq_true_2 (customer o = user_id u) Ha).
        by rewrite andb_false_r. }
    rewrite (bool_decide_eq_true_2 (paymentStatus o = ps_paid) Hp). simpl.
    assert (Qle_bool amount (total o) = true) as ->.
    { apply Qle_bool_iff. rewrite Heq. apply Qle_refl. }
    assert (Qeq_bool amount (total o) = true) as -> by (by apply Qeq_bool_iff).
    simpl. eexists. split; [reflexivity|]. done.
Qed.

Lemma refund_rules_witness :
  exists o',
    refund_order (example_db_with (example_order paid ps_paid 19)) example_admin 5 19 =
      (mkDB example_products (<[5 := o']> (<[5 := example_order paid ps_paid 19]> ∅)), inr tt) /\
    status o' = refunded.
Proof.
  destruct (proj2 (proj2 (refund_rules (example_db_with (example_order paid ps_paid 19))
                            example_admin 5 19)) (example_order paid ps_paid 19)
              eq_refl (or_introl eq_refl) eq_refl (Qeq_refl _))
    as (o' & Heq & Hst & _).
  - intros Hz. discriminate (proj2 (Qeq_bool_iff _ _) Hz).
  - exists o'. split; [exact Heq | exact Hst].
Defined.

(** C5 counterexample: a paid order of total 0, refunded by an admin for
    exactly its total 0, is rejected by the [!amount] check and stays
    [paid]. *)
Lemma refund_zero_total_cex :
  refund_order (example_db_with (example_order paid ps_paid 0)) example_admin 5 0 =
    (example_db_with (example_order paid ps_paid 0), inl InvalidInput).
Proof. reflexivity. Qed.

(** C10. A refund by an authorized caller of a paid order for an amount
    strictly between 0 and the total answers success and leaves the store,
    the order included, exactly as it was. *)
Theorem partial_refund_no_change (db : DB) (u : User) (id : nat) (amount : Q) (o : Order) :
  orders db !! id = Some o ->
  (role u = role_admin \/ customer o = user_id u) ->
  paymentStatus o = ps_paid -> (0 < amount)%Q -> (amount < total o)%Q ->
  refund_order db u id amount = (db, inr tt).
Proof.
  intros Ho Hauth Hp Hpos Hlt. unfold refund_order.
  assert (Qeq_bool amount 0 = false) as ->.
  { apply not_true_iff_false. intros Hz. apply Qeq_bool_iff in Hz.
    rewrite Hz in Hpos. discriminate. }
  rewrite Ho.
  assert (negb (bool_decide (role u = role_admin)) && negb (bool_decide (customer o = user_id u)) = false) as ->.
  { destruct Hauth as [Ha|Ha].
    - by rewrite (bool_decide_eq_true_2 (role u = role_admin) Ha).
    - rewrite (bool_decide_eq_true_2 (customer o = user_id u) Ha).
      by rewrite andb_false_r. }
  rewrite (bool_decide_eq_true_2 (paymentStatus o = ps_paid) Hp). simpl.
  assert (Qle_bool amount (total o) = true) as ->.
  { apply Qle_bool_iff. by apply Qlt_le_weak. }
  assert (Qeq_bool amount (total o) = false) as ->.
  { apply not_true_iff_false. intros He. apply Qeq_bool_iff in He.
    rewrite He in Hlt. by apply (Qlt_irrefl (total o)). }
  simpl. rewrite insert_id by done. by destruct db.
Qed.

Lemma partial_refund_no_change_witness :
  refund_order (example_db_with (example_order paid ps_paid 19)) example_customer 5 10 =
    (example_db_with (example_order paid ps_paid 19), inr tt).
Proof.
  apply (partial_refund_no_change _ _ 5 10 (example_order paid ps_paid 19));
    [reflexivity | right; reflexivity | reflexivity | reflexivity | reflexivity].
Defined.

(** C3 (amended). On an order in a terminal state ([delivered],
    [cancelled], [refunded]) the customer pay route and the cancellation
    route fail and change nothing, whoever calls them. The status writes
    of the other routes do not look at the current status: the admin
    update writes the requested status; a vendor owning a line of the
    order sets any status its list accepts ([shipped], [delivered],
    [cancelled]); a full refund of an order whose payment status is still
    [paid] sets [refunded]. (Payment confirmation is not covered.) *)
Theorem terminal_status_guards (db : DB) (id : nat) (o : Order) :
  orders db !! id = Some o -> is_terminal (status o) = true ->
  (forall u, exists e, pay_order db u id = (db, inl e)) /\
  (forall u, exists e, cancel_order db u id = (db, inl e)) /\
  (forall u s, role u = role_admin ->
     orders (admin_update_order db u id (mkAdminUpdate (Some s) None None)).1 !! id
       = Some (set_status o s)) /\
  (forall v s, role v = role_vendor -> vendor_valid_status s = true ->
     vendor_owns_line (products db) v o = true ->
     vendor_update_status db v id s
       = (mkDB (products db) (<[id := set_status o s]> (orders db)), inr tt)) /\
  (forall u amount, paymentStatus o = ps_paid ->
     (role u = role_admin \/ customer o = user_id u) ->
     ~ (amount == 0)%Q -> (amount == total o)%Q ->
     status <$> orders (refund_order db u id amount).1 !! id = Some refunded).
Proof.
  intros Ho Ht. split; [|split; [|split; [|split]]].
  - intros u. unfold pay_order. rewrite Ho.
    destruct (role u); [|by eexists|by eexists].
    case_bool_decide; [|by eexists].
    destruct (status o); try discriminate; by eexists.
  - intros u. unfold cancel_order. rewrite Ho.
    destruct (negb (cancel_authorized (products db) u o)); [by eexists|].
    destruct (status o); try discriminate; by eexists.
  - intros u s Hr. unfold admin_update_order. rewrite Hr, Ho. simpl.
    by rewrite lookup_insert_eq.
  - intros v s Hv Hs Hown. unfold vendor_update_status.
    by rewrite Hv, Hs, Ho, Hown.
  - intros u amount Hp Ha H0 Heq. unfold refund_order.
    assert (Qeq_bool amount 0 = false) as ->.
    { apply not_true_iff_false. intros E. by apply Qeq_bool_iff in E. }
    rewrite Ho.
    assert (negb (bool_decide (role u = role_admin))
            && negb (bool_decide (customer o = user_id u)) = false) as ->.
    { destruct Ha as [Ha|Ha].
      - by rewrite (bool_decide_eq_true_2 _ Ha).
      - rewrite (bool_decide_eq_true_2 _ Ha). by rewrite andb_false_r. }
    rewrite (bool_decide_eq_true_2 _ Hp). simpl.
    assert (Qle_bool amount (total o) = true) as ->.
    { apply Qle_bool_iff. rewrite Heq. apply Qle_refl. }
    assert (Qeq_bool amount (total o) = true) as -> by (by apply Qeq_bool_iff).
    simpl. by rewrite lookup_insert_eq.
Qed.

Lemma terminal_status_guards_witness :
  exists e, pay_order (example_db_with (example_order delivered ps_paid 19)) example_customer 5
    = (example_db_with (example_order delivered ps_paid 19), inl e).
Proof.
  exact (proj1 (terminal_status_guards (example_db_with (example_order delivered ps_paid 19)) 5
                  (example_order delivered ps_paid 19) eq_refl eq_refl) example_customer).
Defined.

(** C3 counterexample: a [delivered] order leaves its terminal state
    through the admin update (back to [pending]), through the vendor of
    its first line (to [cancelled]) and through a full refund by its
    customer (to [refunded]). *)
Lemma terminal_states_exited_cex :
  status (example_order delivered ps_paid 19) = delivered /\
  status <$> orders (admin_update_order (example_db_with (example_order delivered ps_paid 19))
                       example_admin 5 (mkAdminUpdate (Some pending) None None)).1 !! 5
    = Some pending /\
  status <$> orders (vendor_update_status (example_db_with (example_order delivered ps_paid 19))
                       example_vendor 5 cancelled).1 !! 5
    = Some cancelled /\
  status <$> orders (refund_order (example_db_with (example_order delivered ps_paid 19))
                       example_customer 5 19).1 !! 5
    = Some refunded.
Proof. repeat split; reflexivity. Qed.

Ltac same_lookup :=
  repeat match goal with
  | H1 : ?m !! ?i = Some ?a, H2 : ?m !! ?i = Some ?b |- _ =>
      rewrite H1 in H2; injection H2 as H2; subst b
  end.

Ltac lookup_cases :=
  repeat match goal with
  | H : <[_ := _]> _ !! _ = Some _ |- _ =>
      rewrite lookup_insert in H; case_decide; simplify_eq/=
  | H : alter _ _ _ !! _ = Some _ |- _ =>
      rewrite lookup_alter in H; case_decide; simplify_eq/=
  | H : _ <$> ?m !! ?i = Some _, H2 : ?m !! ?i = Some _ |- _ =>
      rewrite H2 in H; simplify_eq/=
  end; same_lookup.

Ltac snapshot_done := simpl; split; [done | intros; done].

(** No operation changes the lines of an existing order, and only an
    admin update whose request carries a total can change its total. *)
Lemma order_snapshot_core (db : DB) (op : Op) (id : nat) (o o' : Order) :
  orders db !! id = Some o -> orders (run_op db op).1 !! id = Some o' ->
  items o' = items o /\ (op_writes_total op = false -> total o' = total o).
Proof.
  intros Ho Ho'.
  destruct op as [u its addr oid|u i|u i s|u pi i|u i upd|u i|u i amount|ev|u pid upd|u pid|u pid s];
    simpl in Ho'.
  - assert (Hpo : orders (place_order db u its addr oid).1 = orders db \/
                  (orders db !! oid = None /\
                   exists on, orders (place_order db u its addr oid).1 = <[oid := on]> (orders db))).
    { unfold place_order. destruct (role u); [|by left|by left].
      destruct its as [|it its]; [by left|].
      destruct (place_items (products db) (it :: its) 0 []) as [ps' [e|[ois tot]]]; [by left|].
      destruct (orders db !! oid) eqn:Eo; [by left|]. right. split; [done|]. by eexists. }
    destruct (place_order db u its addr oid) as [db' r] eqn:Ep. simpl in Ho', Hpo.
    destruct Hpo as [Hpo|(Hfresh & on & Hpo)]; rewrite Hpo in Ho'.
    + same_lookup. snapshot_done.
    + rewrite lookup_insert in Ho'. case_decide; simplify_eq; same_lookup; snapshot_done.
  - unfold pay_order in Ho'. repeat case_match; simplify_eq/=; lookup_cases; snapshot_done.
  - unfold vendor_update_status in Ho'.
    repeat case_match; simplify_eq/=; lookup_cases; snapshot_done.
  - unfold confirm_payment in Ho'. repeat case_match; simplify_eq/=; lookup_cases; snapshot_done.
  - unfold admin_update_order in Ho'. repeat case_match; simplify_eq/=; lookup_cases;
      try snapshot_done.
    simpl. split; [done|]. destruct upd as [us [t|] ua]; simpl; [discriminate|done].
  - unfold cancel_order in Ho'. repeat case_match; simplify_eq/=; lookup_cases; snapshot_done.
  - unfold refund_order in Ho'. repeat case_match; simplify_eq/=; lookup_cases; snapshot_done.
  - unfold webhook in Ho'. repeat case_match; simplify_eq/=; lookup_cases; snapshot_done.
  - unfold update_product in Ho'. repeat case_match; simplify_eq/=; same_lookup; snapshot_done.
  - unfold delete_product in Ho'. repeat case_match; simplify_eq/=; same_lookup; snapshot_done.
  - unfold patch_stock in Ho'. repeat case_match; simplify_eq/=; same_lookup; snapshot_done.
Qed.

(** The total an admin update leaves on order [id]. *)
Lemma admin_update_total (db : DB) (u : User) (i id : nat) (upd : AdminUpdate) (o o' : Order) :
  orders db !! id = Some o -> orders (admin_update_order db u i upd).1 !! id = Some o' ->
  total o' = if bool_decide (role u = role_admin /\ i = id)
             then default (total o) (upd_total upd) else total o.
Proof.
  intros Ho Ho'. unfold admin_update_order in Ho'.
  destruct (role u) eqn:Er.
  - simpl in Ho'. same_lookup. rewrite bool_decide_false; [done|]. intros [H _]; congruence.
  - simpl in Ho'. same_lookup. rewrite bool_decide_false; [done|]. intros [H _]; congruence.
  - destruct (orders db !! i) as [oi|] eqn:Ei; simpl in Ho'.
    + rewrite lookup_insert in Ho'. case_decide as Hi.
      * subst i. same_lookup. injection Ho' as <-. rewrite bool_decide_true; done.
      * same_lookup. rewrite bool_decide_false; [done|]. intros [_ H]; congruence.
    + same_lookup. rewrite bool_decide_false; [done|]. intros [_ H]; subst; congruence.
Qed.

(** C6 (amended). No operation changes the lines (and so the
    [priceAtPurchase] snapshots) of an existing order, and product updates
    never touch an order. The total changes only through the admin update
    of that order, which writes the total given in its request (an absent
    total leaves it as it was); no operation computes it from current
    product prices. *)
Theorem order_snapshot_fixed (db : DB) (op : Op) (id : nat) (o o' : Order) :
  orders db !! id = Some o -> orders (run_op db op).1 !! id = Some o' ->
  items o' = items o /\ (op_writes_total op = false -> total o' = total o) /\
  (forall u i upd, op = OpAdminUpdate u i upd ->
     total o' = if bool_decide (role u = role_admin /\ i = id)
                then default (total o) (upd_total upd) else total o).
Proof.
  intros Ho Ho'. destruct (order_snapshot_core db op id o o' Ho Ho') as [Hi Ht].
  split; [done|]. split; [done|].
  intros u i upd ->. simpl in Ho'. exact (admin_update_total db u i id upd o o' Ho Ho').
Qed.

Lemma order_snapshot_fixed_witness :
  items (apply_admin_update (example_order paid ps_paid 19) (mkAdminUpdate None (Some 0%Q) None))
    = items (example_order paid ps_paid 19) /\
  total (apply_admin_update (example_order paid ps_paid 19) (mkAdminUpdate None (Some 0%Q) None))
    = 0%Q.
Proof.
  destruct (order_snapshot_fixed (example_db_with (example_order paid ps_paid 19))
              (OpAdminUpdate example_admin 5 (mkAdminUpdate None (Some 0%Q) None)) 5
              (example_order paid ps_paid 19)
              (apply_admin_update (example_order paid ps_paid 19) (mkAdminUpdate None (Some 0%Q) None)))
    as (Hi & _ & Ht); [reflexivity | reflexivity |].
  split; [exact Hi|]. rewrite (Ht example_admin 5 _ eq_refl). reflexivity.
Defined.

(** C6 counterexample: an admin update with a total of 0 overwrites the
    total 19 the order was created with. *)
Lemma admin_rewrites_total_cex :
  total (example_order paid ps_paid 19) = 19%Q /\
  total <$> orders (admin_update_order (example_db_with (example_order paid ps_paid 19))
                      example_admin 5 (mkAdminUpdate None (Some 0%Q) None)).1 !! 5
    = Some 0%Q.
Proof. split; reflexivity. Qed.

(* ------------------------------------------------------------------ *)
(** ** Claim on POST /shipping/calculate *)

Lemma ship_totals_sums its w v :
  ((ship_totals its w v).1 == w + (1 # 2) * spec_quantity_sum its)%Q /\
  ((ship_totals its w v).2 == v + spec_subtotal its)%Q.
Proof.
  revert w v. induction its as [|it its IH]; intros w v; simpl.
  - split; ring.
  - destruct (IH (w + (1 # 2) * inject_Z (si_quantity it))%Q
                 (v + default 0 (si_price it) * inject_Z (si_quantity it))%Q) as [Hw Hv].
    split; [rewrite Hw | rewrite Hv]; ring.
Qed.

(** C9 (amended). For a request with items and a non-empty destination,
    whose method is not a key inherited from [Object.prototype], the
    shipping cost is exactly 0 when the subtotal (sum of price × quantity)
    is above 50, and otherwise [base + perKg × totalWeight] with
    [totalWeight = 0.5 × total quantity], where [base] and [perKg] are those
    of the requested method when it is "standard", "express" or
    "overnight" (the default is "standard"), and those of "standard" for
    any other method name. *)
Theorem shipping_cost_formula (its : list ShipItem) (dest : string) (m : option string) :
  its <> [] -> dest <> ""%string ->
  ~ In (default "standard"%string m) object_prototype_keys ->
  let r := match shippingRates (default "standard"%string m) with
           | Some (own_rate r) => r
           | _ => standard_rate
           end in
  exists q, shipping_calculate its (Some dest) m = inr q /\
    ((50 < spec_subtotal its)%Q -> shippingCost q = Some 0%Q) /\
    ((spec_subtotal its <= 50)%Q ->
       exists c, shippingCost q = Some c /\
         (c == base r + perKg r * ((1 # 2) * spec_quantity_sum its))%Q).
Proof.
  intros Hne Hd Hm r. unfold shipping_calculate.
  destruct its as [|it0 its0]; [done|].
  apply String.eqb_neq in Hd. rewrite Hd.
  assert (Hl : shippingRates (default "standard"%string m) <> Some inherited_member).
  { unfold shippingRates.
    destruct (String.eqb _ "standard"); [discriminate|].
    destruct (String.eqb _ "express"); [discriminate|].
    destruct (String.eqb _ "overnight"); [discriminate|].
    destruct (existsb _ _) eqn:Ex; [|discriminate].
    apply existsb_exists in Ex as (k & Hk & Ek). apply String.eqb_eq in Ek. subst k.
    contradiction. }
  destruct (ship_totals_sums (it0 :: its0) 0 0) as [Hw Hv].
  destruct (ship_totals (it0 :: its0) 0 0) as [tw tv]. simpl in Hw, Hv.
  eexists. split; [reflexivity|]. simpl. split.
  - intros Hgt. destruct (Qle_bool tv 50) eqn:Ele; simpl; [|done].
    apply Qle_bool_iff in Ele. rewrite Hv in Ele. exfalso.
    apply (Qlt_not_le _ _ Hgt). rewrite Qplus_0_l in Ele. exact Ele.
  - intros Hle. assert (Qle_bool tv 50 = true) as ->.
    { apply Qle_bool_iff. rewrite Hv, Qplus_0_l. exact Hle. }
    simpl. unfold r.
    destruct (shippingRates _) as [[rr|]|]; [|done|]; simpl;
      eexists; (split; [reflexivity|]); rewrite Hw; ring.
Qed.

Lemma shipping_cost_formula_witness :
  exists c, shippingCost (match shipping_calculate [mkShipItem (Some 10%Q) 2] (Some "addr"%string)
                                  (Some "express"%string) with
                          | inr q => q | inl _ => mkShipQuote None None false end) = Some c /\
    (c == (1299 # 100) + 4 * ((1 # 2) * 2))%Q.
Proof.
  destruct (shipping_cost_formula [mkShipItem (Some 10%Q) 2] "addr" (Some "express"%string))
    as (q & Heq & _ & Hle); [discriminate | discriminate | vm_compute; intuition discriminate |].
  rewrite Heq. apply Hle. vm_compute. discriminate.
Defined.

(** C9 counterexample: the rate table has no entry "priority", so the
    spec's [base[method]] is undefined there, yet the handler answers the
    standard cost 5.99 + 2.50 × 0.5 × 2 = 8.49. *)
Lemma shipping_unknown_method_cex :
  shippingRates "priority" = None /\
  exists q, shipping_calculate [mkShipItem (Some 10%Q) 2] (Some "addr"%string)
              (Some "priority"%string) = inr q /\
    exists c, shippingCost q = Some c /\ (c == 849 # 100)%Q.
Proof. split; [reflexivity|]. eexists. split; [reflexivity|]. eexists. split; reflexivity. Qed.

(* ------------------------------------------------------------------ *)
(** ** Admin analytics *)

Lemma Qplus_left_comm_eq (a b y : Q) : (a + (b + y))%Q = (b + (a + y))%Q.
Proof.
  destruct a as [a1 a2], b as [b1 b2], y as [y1 y2]. unfold Qplus; simpl. f_equal.
  - rewrite !Pos2Z.inj_mul. ring.
  - rewrite !Pos.mul_assoc, (Pos.mul_comm a2 b2). done.
Qed.

Lemma totalRevenue_delete os i o :
  os !! i = Some o ->
  totalRevenue os =
  (if revenue_counted (status o) then total o + totalRevenue (delete i os)
   else totalRevenue (delete i os))%Q.
Proof.
  intros Hi. unfold totalRevenue.
  apply (map_fold_delete_L
           (fun _ o acc => if revenue_counted (status o) then (total o + acc)%Q else acc)
           0%Q i o os); [|done].
  intros j1 j2 z1 z2 y _ _ _.
  destruct (revenue_counted (status z1)), (revenue_counted (status z2));
    [apply Qplus_left_comm_eq|done..].
Qed.

Lemma totalRevenue_insert os i o o' :
  os !! i = Some o ->
  (totalRevenue (<[i := o']> os) == totalRevenue os - rev_contrib o + rev_contrib o')%Q.
Proof.
  intros Hi. rewrite (totalRevenue_delete os i o Hi).
  rewrite (totalRevenue_delete (<[i := o']> os) i o') by apply lookup_insert_eq.
  rewrite delete_insert_eq. unfold rev_contrib.
  destruct (revenue_counted (status o)), (revenue_counted (status o')); ring.
Qed.

Lemma totalRevenue_insert_fresh os i o' :
  os !! i = None -> revenue_counted (status o') = false ->
  totalRevenue (<[i := o']> os) = totalRevenue os.
Proof.
  intros Hi Hc. unfold totalRevenue.
  rewrite (map_fold_insert_L _ _ i o' os); [cbv beta; by rewrite Hc| |done].
  intros j1 j2 z1 z2 y _ _ _.
  destruct (revenue_counted (status z1)), (revenue_counted (status z2));
    [apply Qplus_left_comm_eq|done..].
Qed.

Lemma totalSold_delete p os i o :
  os !! i = Some o -> totalSold p os = (line_sumq p (items o) + totalSold p (delete i os))%Z.
Proof.
  intros Hi. unfold totalSold.
  apply (map_fold_delete_L (fun _ o acc => (line_sumq p (items o) + acc)%Z) 0%Z i o os);
    [|done].
  intros. lia.
Qed.

Lemma totalSold_insert p os i o o' :
  os !! i = Some o -> items o' = items o -> totalSold p (<[i := o']> os) = totalSold p os.
Proof.
  intros Hi He. rewrite (totalSold_delete p os i o Hi).
  rewrite (totalSold_delete p (<[i := o']> os) i o') by apply lookup_insert_eq.
  by rewrite delete_insert_eq, He.
Qed.

Lemma alter_existing (os : gmap nat Order) f i o :
  os !! i = Some o -> alter f i os = <[i := f o]> os.
Proof.
  intros Hi. apply map_eq. intros j. rewrite lookup_alter, lookup_insert.
  case_decide; subst; [by rewrite Hi|done].
Qed.

Ltac one_order_rewritten :=
  right; eexists _, _, _; split; [eassumption|]; split; [|reflexivity]; reflexivity.

(** Every operation but order placement either leaves the orders as they
    are or rewrites one existing order without touching its lines. *)
Lemma op_keeps_items db op :
  is_place_op op = false ->
  orders (run_op db op).1 = orders db \/
  exists i o o', orders db !! i = Some o /\ items o' = items o /\
                 orders (run_op db op).1 = <[i := o']> (orders db).
Proof.
  intros Hop.
  destruct op as [u its addr oid|u i|u i s|u pi i|u i upd|u i|u i amount|ev|u pid upd|u pid|u pid s];
    simpl in Hop |- *; try discriminate.
  - unfold pay_order. repeat case_match; simplify_eq/=; auto. one_order_rewritten.
  - unfold vendor_update_status. repeat case_match; simplify_eq/=; auto.
    one_order_rewritten.
  - unfold confirm_payment. repeat case_match; simplify_eq/=; auto. one_order_rewritten.
  - unfold admin_update_order. repeat case_match; simplify_eq/=; auto. one_order_rewritten.
  - unfold cancel_order. repeat case_match; simplify_eq/=; auto; one_order_rewritten.
  - unfold refund_order. repeat case_match; simplify_eq/=; auto; one_order_rewritten.
  - unfold webhook. destruct ev as [[id|]|[id|]|]; simpl; auto.
    + destruct (orders db !! id) as [o|] eqn:E.
      * right. eexists _, _, _. split; [exact E|]. split; [|by apply alter_existing]. done.
      * left. by apply alter_id'.
    + destruct (orders db !! id) as [o|] eqn:E.
      * right. eexists _, _, _. split; [exact E|]. split; [|by apply alter_existing]. done.
      * left. by apply alter_id'.
  - unfold update_product. repeat case_match; simplify_eq/=; auto.
  - unfold delete_product. repeat case_match; simplify_eq/=; auto.
  - unfold patch_stock. repeat case_match; simplify_eq/=; auto.
Qed.

(** X1. PATCH /orders/:id/status moves the analytics revenue by the
    order's own total only: it loses the total when the order leaves
    [paid]/[delivered] and gains it when it enters them; a paid order
    marked shipped drops out of the revenue. *)
Theorem vendor_status_revenue (db db' : DB) (v : User) (id : nat) (s : OrderStatus) (o : Order) :
  orders db !! id = Some o -> vendor_update_status db v id s = (db', inr tt) ->
  (totalRevenue (orders db') ==
   totalRevenue (orders db) - rev_contrib o + (if revenue_counted s then total o else 0))%Q.
Proof.
  intros Ho Hrun. unfold vendor_update_status in Hrun.
  repeat case_match; simplify_eq/=; same_lookup;
    rewrite (totalRevenue_insert _ _ o (set_status o s)) by eassumption;
    unfold rev_contrib; simpl;
    match goal with H : revenue_counted s = _ |- _ => rewrite H end; reflexivity.
Qed.

Lemma vendor_status_revenue_witness :
  (totalRevenue (orders (vendor_update_status example_paid_db example_vendor 5 shipped).1) ==
   totalRevenue (orders example_paid_db) - rev_contrib (example_order paid ps_paid 19)
   + (if revenue_counted shipped then total (example_order paid ps_paid 19) else 0))%Q.
Proof.
  apply (vendor_status_revenue example_paid_db _ example_vendor 5 shipped); reflexivity.
Defined.

(** X2. Placing an order never changes the analytics revenue: a new
    order is [pending], and a failed request adds no order. *)
Theorem place_order_keeps_revenue (db : DB) (u : User) (its : list ReqItem) (addr : string)
    (oid : nat) :
  totalRevenue (orders (place_order db u its addr oid).1) = totalRevenue (orders db).
Proof.
  unfold place_order. destruct (role u); [|done|done].
  destruct its as [|it its]; [done|].
  destruct (place_items (products db) (it :: its) 0 []) as [ps' [e|[ois tot]]]; [done|].
  destruct (orders db !! oid) eqn:E; [done|]. simpl.
  by apply totalRevenue_insert_fresh.
Qed.

(** X3. No operation other than order placement changes the quantity
    [topProducts] counts as sold for a product: cancelled and refunded
    orders keep counting, and cancelling does not take back the units. *)
Theorem totalSold_only_grows_by_placement (db : DB) (op : Op) (p : nat) :
  is_place_op op = false -> totalSold p (orders (run_op db op).1) = totalSold p (orders db).
Proof.
  intros Hop. destruct (op_keeps_items db op Hop) as [-> | (i & o & o' & Hi & He & ->)];
    [done|].
  by apply (totalSold_insert p _ i o o').
Qed.

Lemma totalSold_only_grows_by_placement_witness :
  totalSold 1 (orders (run_op example_paid_db (OpCancel example_customer 5)).1)
  = totalSold 1 (orders example_paid_db).
Proof. apply totalSold_only_grows_by_placement. reflexivity. Defined.

(* ------------------------------------------------------------------ *)
(** ** Route dispatch *)

Lemma dispatch_matches rs m path r :
  dispatch rs m path = Some r -> route_matches r m path = true.
Proof.
  induction rs as [|r0 rs IH]; simpl; [discriminate|].
  destruct (route_matches r0 m path) eqn:E; [|done]. intros [= <-]. done.
Qed.

Lemma single_lit_match meth s m path :
  route_matches (mkRoute meth [lit s]) m path = true ->
  m = meth /\ exists x, path = [x] /\ string_lower x = string_lower s.
Proof.
  unfold route_matches; simpl. intros H. apply andb_true_iff in H as [Hm Hp].
  apply bool_decide_eq_true in Hm. split; [done|].
  destruct path as [|x [|y path]]; simpl in Hp; [discriminate| |].
  - rewrite andb_true_r in Hp. apply String.eqb_eq in Hp. eauto.
  - rewrite andb_false_r in Hp. discriminate.
Qed.

Lemma lower_nonempty x s : string_lower x = string_lower s -> s <> ""%string -> x <> ""%string.
Proof. intros H Hs ->. destruct s; simpl in H; [done|discriminate]. Qed.

Lemma order_routes_get_single x :
  x <> ""%string -> dispatch order_routes GET [x] = Some (mkRoute GET [param]).
Proof.
  intros Hx. apply String.eqb_neq in Hx. unfold dispatch, route_matches; simpl.
  by rewrite Hx.
Qed.

Lemma product_routes_get_single x :
  x <> ""%string -> dispatch product_routes GET [x] = Some (mkRoute GET [param]).
Proof.
  intros Hx. apply String.eqb_neq in Hx. unfold dispatch, route_matches; simpl.
  by rewrite Hx.
Qed.

Lemma notification_routes_delete_single x :
  x <> ""%string -> dispatch notification_routes DELETE [x] = Some (mkRoute DELETE [param]).
Proof.
  intros Hx. apply String.eqb_neq in Hx. unfold dispatch, route_matches; simpl.
  by rewrite Hx.
Qed.

(** A literal one-segment route registered after a parameter route of
    the same method never handles a request. *)
Ltac shadowed single :=
  intros H; pose proof (dispatch_matches _ _ _ _ H) as Hm;
  apply single_lit_match in Hm as [-> (x & -> & Hx)];
  rewrite single in H; [discriminate|];
  eapply lower_nonempty; [exact Hx|discriminate].

(** X4. In the order router, every GET of one non-empty segment is
    handled by GET /:id (line 56), registered first; so GET /mine
    (line 178) and GET /vendor (line 192) never handle a request. *)
Theorem order_routes_mine_vendor_unreachable (s : string) (m : Method) (path : list string) :
  s <> ""%string ->
  dispatch order_routes GET [s] = Some (mkRoute GET [param]) /\
  dispatch order_routes m path <> Some (mkRoute GET [lit "mine"]) /\
  dispatch order_routes m path <> Some (mkRoute GET [lit "vendor"]).
Proof.
  intros Hs. split; [by apply order_routes_get_single|].
  split; shadowed order_routes_get_single.
Qed.

Lemma order_routes_mine_vendor_unreachable_witness :
  dispatch order_routes GET ["mine"%string] = Some (mkRoute GET [param]) /\
  dispatch order_routes GET ["mine"%string] <> Some (mkRoute GET [lit "mine"]) /\
  dispatch order_routes GET ["mine"%string] <> Some (mkRoute GET [lit "vendor"]).
Proof. apply order_routes_mine_vendor_unreachable. discriminate. Defined.

(** X5. In the product router, every GET of one non-empty segment is
    handled by GET /:id (line 115); so GET /mine (line 166) and GET
    /out-of-stock (line 271) never handle a request. *)
Theorem product_routes_mine_out_of_stock_unreachable (s : string) (m : Method)
    (path : list string) :
  s <> ""%string ->
  dispatch product_routes GET [s] = Some (mkRoute GET [param]) /\
  dispatch product_routes m path <> Some (mkRoute GET [lit "mine"]) /\
  dispatch product_routes m path <> Some (mkRoute GET [lit "out-of-stock"]).
Proof.
  intros Hs. split; [by apply product_routes_get_single|].
  split; shadowed product_routes_get_single.
Qed.

Lemma product_routes_mine_out_of_stock_unreachable_witness :
  dispatch product_routes GET ["out-of-stock"%string] = Some (mkRoute GET [param]) /\
  dispatch product_routes GET ["out-of-stock"%string] <> Some (mkRoute GET [lit "mine"]) /\
  dispatch product_routes GET ["out-of-stock"%string]
    <> Some (mkRoute GET [lit "out-of-stock"]).
Proof. apply product_routes_mine_out_of_stock_unreachable. discriminate. Defined.

Lemma object_id_not_clear x : is_object_id x = true -> String.eqb x "clear" = false.
Proof. intros H. apply String.eqb_neq. intros ->. discriminate. Qed.

(** X6. DELETE /notifications/clear is handled by DELETE /:id (line 73)
    with id "clear", never by the clear-all handler (line 95); as no
    notification id (an ObjectId text) is "clear", the request removes
    nothing. *)
Theorem notifications_clear_removes_nothing (ns : list Notification) (m : Method)
    (path : list string) :
  Forall (fun n => is_object_id (n_id n) = true) ns ->
  dispatch notification_routes m path <> Some (mkRoute DELETE [lit "clear"]) /\
  dispatch notification_routes DELETE ["clear"%string] = Some (mkRoute DELETE [param]) /\
  delete_notification ns "clear" = ns.
Proof.
  intros Hns. split; [shadowed notification_routes_delete_single|].
  split; [by apply notification_routes_delete_single|].
  unfold delete_notification. induction Hns as [|n ns Hn Hns IH]; simpl; [done|].
  rewrite object_id_not_clear by done. simpl. by rewrite IH.
Qed.

Lemma notifications_clear_removes_nothing_witness :
  dispatch notification_routes DELETE ["clear"%string] <> Some (mkRoute DELETE [lit "clear"]) /\
  dispatch notification_routes DELETE ["clear"%string] = Some (mkRoute DELETE [param]) /\
  delete_notification example_notifications "clear" = example_notifications.
Proof.
  apply notifications_clear_removes_nothing.
  repeat constructor.
Defined.

(* ------------------------------------------------------------------ *)
(** ** Shipping addresses *)

Lemma default_count_app l1 l2 :
  default_count (l1 ++ l2) = default_count l1 + default_count l2.
Proof.
  unfold default_count. induction l1 as [|a l1 IH]; simpl; [done|].
  destruct (isDefault a); simpl; lia.
Qed.

Lemma default_count_cleared l : default_count (map (fun a => set_default a false) l) = 0.
Proof. unfold default_count. by induction l. Qed.

Lemma default_count_single a : default_count [a] = if isDefault a then 1 else 0.
Proof. unfold default_count. simpl. by destruct (isDefault a). Qed.

Lemma default_count_delete l i x :
  l !! i = Some x ->
  default_count l = default_count (delete i l) + (if isDefault x then 1 else 0).
Proof.
  unfold default_count. revert i.
  induction l as [|a l IH]; intros [|i] H; simpl in H; try discriminate.
  - injection H as ->. simpl. destruct (isDefault x); simpl; lia.
  - specialize (IH i H). simpl. destruct (isDefault a); simpl; lia.
Qed.

Lemma filter_default_cleared l :
  List.filter isDefault (map (fun a => set_default a false) l) = [].
Proof. by induction l. Qed.

Lemma filter_default_alter l i x :
  l !! i = Some x ->
  List.filter isDefault
    (alter (fun a => set_default a true) i (map (fun a => set_default a false) l))
  = [set_default x true].
Proof.
  revert i. induction l as [|a l IH]; intros [|i] H; simpl in H; try discriminate.
  - injection H as ->. simpl. rewrite filter_default_cleared. by destruct x.
  - simpl. by apply IH.
Qed.

(** X7. Saving an address keeps at most one default address, and never
    leaves a user who had a default address without one. *)
Theorem save_address_one_default (addrs : list Address) (req : AddressReq) (aid : nat)
    (addrs' : list Address) :
  default_count addrs <= 1 -> save_address addrs req aid = inr addrs' ->
  default_count addrs' <= 1 /\ (default_count addrs = 1 -> default_count addrs' = 1).
Proof.
  intros Hle. unfold save_address.
  destruct (_ || _ || _ || _ || _); [discriminate|]. intros [= <-].
  rewrite default_count_app.
  destruct addrs as [|a0 rest].
  - unfold default_count; simpl. lia.
  - destruct (req_isDefault req) eqn:Er; cbv beta iota zeta;
      rewrite ?default_count_cleared, default_count_single; simpl; rewrite ?Er; lia.
Qed.

Lemma save_address_one_default_witness :
  default_count (example_addresses ++ []) <= 1 /\
  (default_count example_addresses = 1 ->
   default_count
     (map (fun a => set_default a false) example_addresses ++
      [mkAddress 3 "3 Elm Rd" "Springfield" "IL" "62703" "US" None true]) = 1).
Proof.
  split; [vm_compute; lia|].
  apply (save_address_one_default example_addresses example_address_req 3); [vm_compute; lia|].
  reflexivity.
Defined.

(** X8. After setting a default address, exactly one address is the
    default: the address with the requested id. *)
Theorem set_default_address_unique (addrs : list Address) (id : nat) (addrs' : list Address) :
  set_default_address addrs id = inr addrs' ->
  exists a, a ∈ addrs /\ addr_id a = id /\ List.filter isDefault addrs' = [set_default a true].
Proof.
  unfold set_default_address.
  destruct (list_find (fun a => addr_id a = id) addrs) as [[i x]|] eqn:E; [|discriminate].
  intros [= <-]. apply list_find_Some in E as (Hl & Hid & _).
  exists x. split; [by eapply list_elem_of_lookup_2|]. split; [done|].
  by apply filter_default_alter.
Qed.

Lemma set_default_address_unique_witness :
  exists a, a ∈ example_addresses /\ addr_id a = 2 /\
    List.filter isDefault (alter (fun a => set_default a true) 1
                             (map (fun a => set_default a false) example_addresses))
    = [set_default a true].
Proof. apply (set_default_address_unique example_addresses 2). reflexivity. Defined.

Lemma list_find_first_address (pre post : list Address) (x : Address) (id : nat) :
  Forall (fun a => addr_id a <> id) pre -> addr_id x = id ->
  list_find (fun a => addr_id a = id) (pre ++ x :: post) = Some (length pre, x).
Proof.
  intros Hpre Hx. rewrite list_find_app_r by (by apply list_find_None).
  simpl. rewrite decide_True by done. simpl. done.
Qed.

(** X9. Deleting an address removes the first address with that id and
    keeps at most one default address; when the removed address was the
    default and others remain, the first remaining one becomes the default
    and the others are left as they were. *)
Theorem delete_address_one_default (addrs : list Address) (id : nat) (addrs' : list Address) :
  default_count addrs <= 1 -> delete_address addrs id = inr addrs' ->
  default_count addrs' <= 1 /\
  (default_count addrs = 1 -> addrs' <> [] -> default_count addrs' = 1) /\
  (forall pre x post, addrs = pre ++ x :: post -> Forall (fun a => addr_id a <> id) pre ->
     addr_id x = id ->
     (isDefault x = true -> forall a0 tl, pre ++ post = a0 :: tl ->
        addrs' = set_default a0 true :: tl) /\
     (isDefault x = false -> addrs' = pre ++ post)).
Proof.
  intros Hle Hdel.
  assert (Hshape : forall pre x post, addrs = pre ++ x :: post ->
            Forall (fun a => addr_id a <> id) pre -> addr_id x = id ->
            (isDefault x = true -> forall a0 tl, pre ++ post = a0 :: tl ->
               addrs' = set_default a0 true :: tl) /\
            (isDefault x = false -> addrs' = pre ++ post)).
  { intros pre x post -> Hpre Hx. unfold delete_address in Hdel.
    rewrite (list_find_first_address pre post x id Hpre Hx), delete_middle in Hdel.
    split.
    - intros Hd a0 tl Hr. rewrite Hd, Hr in Hdel. by injection Hdel as <-.
    - intros Hd. rewrite Hd in Hdel. by injection Hdel as <-. }
  enough (default_count addrs' <= 1 /\
          (default_count addrs = 1 -> addrs' <> [] -> default_count addrs' = 1))
    by tauto.
  revert Hdel. unfold delete_address.
  destruct (list_find (fun a => addr_id a = id) addrs) as [[i x]|] eqn:E; [|discriminate].
  apply list_find_Some in E as (Hl & _ & _).
  pose proof (default_count_delete _ _ _ Hl) as Hc.
  destruct (isDefault x) eqn:Ed.
  - destruct (delete i addrs) as [|a0 tl] eqn:Er; intros [= <-].
    + unfold default_count; simpl. split; [lia|done].
    + unfold default_count in *; simpl in *.
      destruct (isDefault a0); simpl in *; lia.
  - intros [= <-]. lia.
Qed.

Lemma delete_address_one_default_witness :
  default_count [set_default (mkAddress 2 "2 Oak Ave" "Springfield" "IL" "62702" "US" None false) true] <= 1 /\
  [set_default (mkAddress 2 "2 Oak Ave" "Springfield" "IL" "62702" "US" None false) true]
    = set_default (mkAddress 2 "2 Oak Ave" "Springfield" "IL" "62702" "US" None false) true :: [].
Proof.
  destruct (delete_address_one_default example_addresses 1
              [set_default (mkAddress 2 "2 Oak Ave" "Springfield" "IL" "62702" "US" None false) true])
    as (Hle & _ & Hshape); [vm_compute; lia | reflexivity |].
  split; [exact Hle|].
  apply (proj1 (Hshape [] (mkAddress 1 "1 Main St" "Springfield" "IL" "62701" "US" None true)
                  [mkAddress 2 "2 Oak Ave" "Springfield" "IL" "62702" "US" None false]
                  eq_refl (List.Forall_nil _) eq_refl) eq_refl _ _ eq_refl).
Defined.

(* ------------------------------------------------------------------ *)
(** ** Cart *)

Lemma ascii_lower_hex (c : Ascii.ascii) : is_hex_digit c = true -> ascii_lower c = c.
Proof.
  destruct c as [b0 b1 b2 b3 b4 b5 b6 b7].
  destruct b0, b1, b2, b3, b4, b5, b6, b7; intros H; vm_compute in H |- *;
    first [reflexivity | discriminate H].
Qed.

Lemma string_lower_hex (s : string) :
  forallb is_hex_digit (list_ascii_of_string s) = true -> string_lower s = s.
Proof.
  induction s as [|c s IH]; simpl; [done|].
  intros [Hc Hs]%andb_true_iff. by rewrite ascii_lower_hex, IH.
Qed.

Lemma string_lower_object_id (s : string) : is_object_id s = true -> string_lower s = s.
Proof. unfold is_object_id. intros [_ H]%andb_true_iff. by apply string_lower_hex. Qed.

Lemma hex24_cast_ok : object_id_cast_ok hex24_cast.
Proof.
  unfold object_id_cast_ok, hex24_cast. split.
  - intros s' Hs. rewrite (string_lower_object_id s' Hs). by rewrite Hs.
  - intros s' t. destruct (is_object_id (string_lower s')) eqn:E; [|discriminate].
    by intros [= <-].
Qed.

Lemma map_insert_list {A B} (f : A -> B) (l : list A) (k : nat) (x : A) :
  map f (<[k := x]> l) = <[k := f x]> (map f l).
Proof.
  revert k. induction l as [|a l IH]; intros [|k]; simpl; [done..|by rewrite IH].
Qed.

Lemma lookup_map_list {A B} (f : A -> B) (l : list A) (k : nat) (x : A) :
  l !! k = Some x -> map f l !! k = Some (f x).
Proof.
  revert k. induction l as [|a l IH]; intros [|k] H; simpl in *; try discriminate.
  - by injection H as ->.
  - by apply IH.
Qed.

Lemma not_elem_of_keys (cart : list CartItem) (product : string) :
  Forall (fun i => ~ String.eqb (ci_product i) product = true) cart ->
  product ∉ map ci_product cart.
Proof.
  intros E Hx. apply list_elem_of_In, in_map_iff in Hx as (c & Hc & Hin).
  apply list_elem_of_In in Hin. rewrite Forall_forall in E.
  apply (E c Hin). by apply String.eqb_eq.
Qed.

Lemma add_line_nodup cast cart product quantity cart' :
  object_id_cast_ok cast -> is_object_id product = true ->
  add_line cast cart product quantity = Some cart' ->
  NoDup (map ci_product cart) -> NoDup (map ci_product cart').
Proof.
  intros [Hcast _] Hp. unfold add_line.
  destruct (list_find _ cart) as [[k i]|] eqn:E.
  - intros [= <-] Hnd. apply list_find_Some in E as (Hk & _ & _).
    rewrite map_insert_list. simpl.
    rewrite list_insert_id; [done|]. by apply lookup_map_list.
  - rewrite (Hcast product Hp). intros [= <-] Hnd.
    apply list_find_None, not_elem_of_keys in E.
    rewrite map_app. simpl. apply NoDup_app. split; [done|]. split; [|apply NoDup_singleton].
    intros x Hx Hx'. apply list_elem_of_singleton in Hx' as ->. contradiction.
Qed.

Lemma filter_map_nodup (f : CartItem -> string) (P : CartItem -> bool) (l : list CartItem) :
  NoDup (map f l) -> NoDup (map f (List.filter P l)).
Proof.
  induction l as [|a l IH]; simpl; [done|].
  intros Hnd. apply NoDup_cons in Hnd as [Hnot Hnd].
  destruct (P a); simpl; [|by apply IH].
  apply NoDup_cons. split; [|by apply IH].
  intros Hin. apply Hnot.
  apply list_elem_of_In, in_map_iff in Hin as (c & Hc & Hc').
  apply list_elem_of_In, in_map_iff. exists c. split; [done|].
  apply filter_In in Hc'. tauto.
Qed.

(** X10. Adding a product under its id as the store prints it (24
    lower-case hex digits), and removing, never create two lines for one
    product. An add that spells the id of a product already in the cart
    differently (upper-case digits, say) misses that line in [findIndex]
    and pushes a second line for the same product. *)
Theorem cart_lines_unique (cast : string -> option string) (carts : gmap nat (list CartItem))
    (u : User) (product : string) (quantity : Z) (removed : option string) :
  object_id_cast_ok cast -> carts_ok carts ->
  (is_object_id product = true -> carts_ok (cart_add cast carts u (Some product) quantity).1) /\
  carts_ok (cart_remove carts u removed).1 /\
  (forall cart i, role u = role_customer -> carts !! user_id u = Some cart -> cart_ids_ok cart ->
     i ∈ cart -> cast product = Some (ci_product i) -> ci_product i <> product ->
     product <> ""%string -> (1 <= quantity)%Z ->
     ~ carts_ok (cart_add cast carts u (Some product) quantity).1).
Proof.
  intros Hcast Hok. split; [|split].
  - intros Hp. unfold cart_add. destruct (role u); simpl; try done.
    destruct (_ || _ || _); simpl; [done|].
    destruct (add_line cast _ product quantity) as [cart'|] eqn:Ea; simpl; [|done].
    apply map_Forall_insert_2; [|done]. apply (add_line_nodup _ _ _ _ _ Hcast Hp Ea).
    destruct (carts !! user_id u) as [cart|] eqn:E; simpl; [|constructor].
    exact (Hok _ _ E).
  - unfold cart_remove. destruct (role u); simpl; try done.
    destruct (carts !! user_id u) as [cart|] eqn:E; simpl; [|done].
    apply map_Forall_insert_2; [|done]. apply filter_map_nodup. exact (Hok _ _ E).
  - intros cart i Hr Hc Hids Hi Hk Hne He Hq Hbad.
    assert (is_object_id product = false) as Hnp.
    { destruct (is_object_id product) eqn:E; [|done].
      rewrite (proj1 Hcast product E) in Hk. congruence. }
    assert (list_find (fun j => String.eqb (ci_product j) product = true) cart = None) as Hf.
    { apply list_find_None. unfold cart_ids_ok in Hids. rewrite Forall_forall in Hids |- *.
      intros j Hj Heq. apply String.eqb_eq in Heq.
      specialize (Hids j Hj). simpl in Hids. congruence. }
    revert Hbad. unfold cart_add. rewrite Hr, Hc. simpl.
    apply String.eqb_neq in He. rewrite He.
    assert ((quantity =? 0)%Z = false) as -> by (apply Z.eqb_neq; lia).
    assert ((quantity <? 1)%Z = false) as -> by (apply Z.ltb_ge; lia).
    simpl. unfold add_line. rewrite Hf, Hk. simpl. intros Hbad.
    specialize (Hbad (user_id u) _ (lookup_insert_eq _ _ _)). simpl in Hbad.
    rewrite map_app in Hbad. apply NoDup_app in Hbad as (_ & Hdis & _).
    apply (Hdis (ci_product i)); [|by apply list_elem_of_singleton].
    apply list_elem_of_In, in_map_iff. exists i. split; [done|]. by apply list_elem_of_In.
Qed.

Lemma cart_lines_unique_witness :
  carts_ok (cart_add hex24_cast example_carts example_customer
              (Some "65a1f0c2e4b0a1b2c3d4e501"%string) 3).1 /\
  ~ carts_ok (cart_add hex24_cast example_carts example_customer
                (Some "65A1F0C2E4B0A1B2C3D4E501"%string) 3).1.
Proof.
  assert (Hok : carts_ok example_carts).
  { unfold example_carts. apply map_Forall_insert_2; [|apply map_Forall_empty].
    simpl. apply NoDup_singleton. }
  split.
  - apply (cart_lines_unique hex24_cast example_carts example_customer
             "65a1f0c2e4b0a1b2c3d4e501"%string 3 None hex24_cast_ok Hok).
    reflexivity.
  - apply (proj2 (proj2 (cart_lines_unique hex24_cast example_carts example_customer
             "65A1F0C2E4B0A1B2C3D4E501"%string 3 None hex24_cast_ok Hok))
             [mkCartItem "65a1f0c2e4b0a1b2c3d4e501"%string 2] (mkCartItem "65a1f0c2e4b0a1b2c3d4e501"%string 2));
      try reflexivity.
    + unfold cart_ids_ok. repeat constructor.
    + by apply list_elem_of_singleton.
    + discriminate.
    + discriminate.
    + lia.
Defined.

Lemma cart_qty_app p l1 l2 : cart_qty p (l1 ++ l2) = (cart_qty p l1 + cart_qty p l2)%Z.
Proof. induction l1 as [|a l1 IH]; simpl; lia. Qed.

Lemma cart_qty_insert p l k x y :
  l !! k = Some x ->
  cart_qty p (<[k := y]> l) =
    (cart_qty p l - (if String.eqb (ci_product x) p then ci_quantity x else 0)
     + (if String.eqb (ci_product y) p then ci_quantity y else 0))%Z.
Proof.
  revert k. induction l as [|a l IH]; intros [|k] H; simpl in H; try discriminate.
  - injection H as ->. simpl. lia.
  - simpl. rewrite (IH k H). lia.
Qed.

(** X11. A successful add to cart has a quantity of at least 1, stores
    the new cart under the customer, and raises the quantity of exactly
    one product, the request's id as cast to an ObjectId, by that
    quantity; the other products' quantities stay the same. *)
Theorem cart_add_quantity (cast : string -> option string) (carts : gmap nat (list CartItem))
    (u : User) (product : string) (quantity : Z) (cart' : list CartItem) (p : string) :
  object_id_cast_ok cast -> cart_ids_ok (default [] (carts !! user_id u)) ->
  (cart_add cast carts u (Some product) quantity).2 = inr cart' ->
  exists key, cast product = Some key /\ (1 <= quantity)%Z /\
    (cart_add cast carts u (Some product) quantity).1 !! user_id u = Some cart' /\
    cart_qty p cart' =
      (cart_qty p (default [] (carts !! user_id u)) + (if String.eqb key p then quantity else 0))%Z.
Proof.
  intros [Hcast _] Hids. unfold cart_add. destruct (role u); simpl; try discriminate.
  destruct (String.eqb product "" || (quantity =? 0)%Z || (quantity <? 1)%Z) eqn:Eq;
    simpl; [discriminate|].
  apply orb_false_iff in Eq as [_ Hq]. apply Z.ltb_ge in Hq.
  revert Hids. generalize (default [] (carts !! user_id u)) as cart. intros cart Hids.
  destruct (add_line cast cart product quantity) as [c'|] eqn:Ea; simpl; [|discriminate].
  intros [= <-]. revert Ea. unfold add_line.
  destruct (list_find _ cart) as [[k i]|] eqn:E.
  - apply list_find_Some in E as (Hk & Hi & _). apply String.eqb_eq in Hi.
    intros [= <-]. exists product.
    assert (is_object_id product = true) as Hp.
    { unfold cart_ids_ok in Hids. rewrite Forall_forall in Hids.
      rewrite <- Hi. apply (Hids i). by eapply list_elem_of_lookup_2. }
    split; [exact (Hcast _ Hp)|]. split; [lia|]. split; [by rewrite lookup_insert_eq|].
    rewrite (cart_qty_insert _ _ _ _ _ Hk). simpl. rewrite Hi.
    destruct (String.eqb product p); lia.
  - destruct (cast product) as [key|] eqn:Ek; [|discriminate]. intros [= <-].
    exists key. split; [done|]. split; [lia|]. split; [by rewrite lookup_insert_eq|].
    rewrite cart_qty_app. simpl. destruct (String.eqb key p); lia.
Qed.

Lemma cart_add_quantity_witness :
  exists key, hex24_cast "65A1F0C2E4B0A1B2C3D4E502"%string = Some key /\ (1 <= 3)%Z /\
    (cart_add hex24_cast example_carts example_customer (Some "65A1F0C2E4B0A1B2C3D4E502"%string) 3).1
      !! 42%nat
      = Some [mkCartItem "65a1f0c2e4b0a1b2c3d4e501"%string 2; mkCartItem "65a1f0c2e4b0a1b2c3d4e502"%string 3] /\
    cart_qty "65a1f0c2e4b0a1b2c3d4e502"%string
      [mkCartItem "65a1f0c2e4b0a1b2c3d4e501"%string 2; mkCartItem "65a1f0c2e4b0a1b2c3d4e502"%string 3] =
      (cart_qty "65a1f0c2e4b0a1b2c3d4e502"%string (default [] (example_carts !! 42%nat))
       + (if String.eqb key "65a1f0c2e4b0a1b2c3d4e502"%string then 3 else 0))%Z.
Proof.
  apply (cart_add_quantity hex24_cast example_carts example_customer "65A1F0C2E4B0A1B2C3D4E502"%string 3
           [mkCartItem "65a1f0c2e4b0a1b2c3d4e501"%string 2; mkCartItem "65a1f0c2e4b0a1b2c3d4e502"%string 3]
           "65a1f0c2e4b0a1b2c3d4e502"%string hex24_cast_ok).
  - unfold cart_ids_ok. repeat constructor.
  - reflexivity.
Defined.

(* ------------------------------------------------------------------ *)
(** ** Tracking and payment intents *)

(** X12. Once a vendor has marked an order shipped or delivered, tracking
    it never answers: the order's own customer gets 500, any other caller
    500 or 403. *)
Theorem track_after_vendor_ship (db db' : DB) (v : User) (id : nat) (s : OrderStatus) (o : Order) :
  orders db !! id = Some o ->
  vendor_update_status db v id s = (db', inr tt) -> s = shipped \/ s = delivered ->
  track_order db' (mkUser (customer o) role_customer) id = inl Internal /\
  forall u, track_order db' u id = inl Internal \/ track_order db' u id = inl Forbidden.
Proof.
  intros Ho. unfold vendor_update_status.
  destruct (role v); try discriminate.
  destruct (negb (vendor_valid_status s)); [discriminate|]. rewrite Ho.
  destruct (vendor_owns_line (products db) v o); [|discriminate].
  intros [= <-] Hs. unfold track_order; simpl. rewrite lookup_insert_eq. simpl.
  split.
  - rewrite bool_decide_true by done. simpl.
    by destruct Hs as [-> | ->].
  - intros u. destruct (_ && _); [by right|]. left. by destruct Hs as [-> | ->].
Qed.

Lemma track_after_vendor_ship_witness :
  track_order (vendor_update_status example_paid_db example_vendor 5 shipped).1
    (mkUser 42 role_customer) 5 = inl Internal /\
  forall u, track_order (vendor_update_status example_paid_db example_vendor 5 shipped).1 u 5 = inl Internal \/
            track_order (vendor_update_status example_paid_db example_vendor 5 shipped).1 u 5 = inl Forbidden.
Proof.
  apply (track_after_vendor_ship example_paid_db _ example_vendor 5 shipped
           (example_order paid ps_paid 19)); [reflexivity | reflexivity | by left].
Defined.

(** X13. For a pending order of its own, a customer obtains a payment
    intent of [amount * 100] (in USD unless another currency is given);
    once the order is paid, a new intent for it is refused. *)
Theorem create_intent_until_paid (db : DB) (u : User) (id : nat) (o : Order) (amount : Q)
    (cur : option string) :
  role u = role_customer -> orders db !! id = Some o -> customer o = user_id u ->
  status o = pending -> ~ (amount == 0)%Q ->
  create_intent db u (Some id) amount cur =
    inr (mkPaymentIntent (amount * 100) (default "USD"%string cur) id) /\
  create_intent (pay_order db u id).1 u (Some id) amount cur = inl InvalidTransition.
Proof.
  intros Hr Ho Hc Hs Ha.
  assert (Qeq_bool amount 0 = false) as Hq.
  { destruct (Qeq_bool amount 0) eqn:E; [|done]. by apply Qeq_bool_iff in E. }
  unfold create_intent. rewrite Hq. split.
  - rewrite Ho, bool_decide_true by done. simpl. by rewrite bool_decide_true.
  - unfold pay_order. rewrite Hr, Ho, bool_decide_true by done. rewrite Hs. simpl.
    rewrite lookup_insert_eq. simpl. by rewrite bool_decide_true.
Qed.

Lemma create_intent_until_paid_witness :
  create_intent (example_db_with (example_order pending ps_pending 19)) example_customer
    (Some 5) 19 None = inr (mkPaymentIntent (19 * 100) "USD" 5) /\
  create_intent (pay_order (example_db_with (example_order pending ps_pending 19))
                   example_customer 5).1 example_customer (Some 5) 19 None = inl InvalidTransition.
Proof.
  apply (create_intent_until_paid _ example_customer 5 (example_order pending ps_pending 19));
    try reflexivity.
  intros H. discriminate (proj2 (Qeq_bool_iff _ _) H).
Defined.

(* ------------------------------------------------------------------ *)
(** ** Registration *)

Lemma register_fresh (accounts : gmap nat Account) (username email : string) (k : nat) (a : Account) :
  existsb (fun ka => String.eqb (acc_email ka.2) email || String.eqb (acc_username ka.2) username)
    (map_to_list accounts) = false ->
  accounts !! k = Some a -> acc_email a <> email /\ acc_username a <> username.
Proof.
  intros Hex Hk.
  assert (In (k, a) (map_to_list accounts)) as Hin
    by (apply list_elem_of_In, elem_of_map_to_list, Hk).
  destruct (String.eqb (acc_email a) email) eqn:E1.
  { exfalso. enough (existsb (fun ka => String.eqb (acc_email ka.2) email
                                     || String.eqb (acc_username ka.2) username)
                       (map_to_list accounts) = true) by congruence.
    apply existsb_exists. exists (k, a). simpl. by rewrite E1. }
  destruct (String.eqb (acc_username a) username) eqn:E2.
  { exfalso. enough (existsb (fun ka => String.eqb (acc_email ka.2) email
                                     || String.eqb (acc_username ka.2) username)
                       (map_to_list accounts) = true) by congruence.
    apply existsb_exists. exists (k, a). simpl. by rewrite E1, E2. }
  split; by apply String.eqb_neq.
Qed.

(** X14. Registration keeps emails and usernames unique among accounts. *)
Theorem register_keeps_unique (accounts : gmap nat Account) (username email : string)
    (r : Role) (uid : nat) :
  accounts_unique accounts -> accounts_unique (register accounts username email r uid).1.
Proof.
  intros Hu. unfold register.
  destruct (existsb _ _) eqn:Hex; [done|].
  destruct (accounts !! uid) eqn:Euid; [done|]. simpl.
  intros k1 k2 a1 a2 H1 H2 Hne.
  rewrite lookup_insert in H1, H2.
  destruct (decide (uid = k1)) as [<-|], (decide (uid = k2)) as [<-|]; simplify_eq.
  - destruct (register_fresh _ _ _ _ _ Hex H2). simpl. split; congruence.
  - destruct (register_fresh _ _ _ _ _ Hex H1). simpl. split; congruence.
  - by apply (Hu k1 k2).
Qed.

Lemma register_keeps_unique_witness :
  accounts_unique (register example_accounts "alice" "alice@example.com" role_customer 2).1.
Proof.
  apply register_keeps_unique. intros k1 k2 a1 a2 H1 H2 Hne.
  unfold example_accounts in *.
  apply lookup_singleton_Some in H1 as [<- _], H2 as [<- _]. done.
Defined.

(** X15. Anyone may register as an administrator: the role of the request
    is stored and returned, and the new account can then rewrite any
    order through PUT /orders/:id. *)
Theorem register_as_admin (accounts accounts' : gmap nat Account) (username email : string)
    (uid : nat) (u : User) :
  register accounts username email role_admin uid = (accounts', inr u) ->
  role u = role_admin /\ accounts' !! uid = Some (mkAccount username email role_admin) /\
  forall db id o upd, orders db !! id = Some o -> (admin_update_order db u id upd).2 = inr tt.
Proof.
  unfold register. destruct (existsb _ _); [discriminate|].
  destruct (accounts !! uid); [discriminate|]. intros [= <- <-].
  split; [done|]. split; [by rewrite lookup_insert_eq|].
  intros db id o upd Ho. unfold admin_update_order. simpl. by rewrite Ho.
Qed.

Lemma register_as_admin_witness :
  role (mkUser 2 role_admin) = role_admin /\
  <[2 := mkAccount "mallory" "m@example.com" role_admin]> example_accounts !! 2%nat
    = Some (mkAccount "mallory" "m@example.com" role_admin) /\
  forall db id o upd, orders db !! id = Some o ->
    (admin_update_order db (mkUser 2 role_admin) id upd).2 = inr tt.
Proof.
  apply (register_as_admin example_accounts _ "mallory" "m@example.com" 2). reflexivity.
Defined.

(* ------------------------------------------------------------------ *)
(** ** Product creation and offers *)

(** X16. A product created by an administrator is filed under the
    administrator's id as its vendor; afterwards PATCH /products/:id/stock
    succeeds on it only for a vendor carrying that same id. *)
Theorem admin_product_stock_locked (db db' : DB) (a : User) (pr_price : Q) (pr_offer : option Q)
    (pr_stock : option Z) (pid : nat) (pr : Product) :
  role a = role_admin ->
  create_product db a pr_price pr_offer pr_stock pid = (db', inr pr) ->
  vendor pr = user_id a /\ products db' !! pid = Some pr /\
  forall u s, (patch_stock db' u pid s).2 = inr tt -> role u = role_vendor /\ user_id u = user_id a.
Proof.
  intros Ha. unfold create_product. rewrite Ha.
  destruct (products db !! pid); [discriminate|]. intros [= <- <-]. simpl.
  split; [done|]. split; [by rewrite lookup_insert_eq|].
  intros u s. unfold patch_stock. simpl.
  destruct (role u); simpl; try discriminate.
  destruct (s <? 0)%Z; [discriminate|]. rewrite lookup_insert_eq.
  case_bool_decide as Hv; [|discriminate]. simpl in Hv. by intros _.
Qed.

Lemma admin_product_stock_locked_witness :
  vendor (mkProduct 10 0 0 1) = user_id example_admin /\
  products (create_product example_paid_db example_admin 10 None None 9).1 !! 9%nat
    = Some (mkProduct 10 0 0 1) /\
  forall u s, (patch_stock (create_product example_paid_db example_admin 10 None None 9).1 u 9 s).2
              = inr tt -> role u = role_vendor /\ user_id u = user_id example_admin.
Proof.
  apply (admin_product_stock_locked example_paid_db _ example_admin 10 None None 9); reflexivity.
Defined.

(** The order loop prices each new line from the product as stored before
    the request: only the stock of a product changes during the loop. *)
Lemma place_items_line_price ps its total ois ps' ois' total' :
  place_items ps its total ois = (ps', inr (ois', total')) ->
  forall it, it ∈ ois' -> it ∈ ois \/
    exists pr, ps !! product it = Some pr /\
               priceAtPurchase it = (price pr * (1 - offer pr / 100))%Q.
Proof.
  revert ps total ois. induction its as [|item rest IH]; intros ps total ois; simpl.
  - intros [= -> -> ->] it Hit. by left.
  - destruct (ps !! req_product item) as [pr|] eqn:Ep; [|discriminate].
    destruct (stock pr <? req_quantity item)%Z; [discriminate|].
    intros H it Hit. destruct (IH _ _ _ H it Hit) as [Hin|(pr' & Hp' & Hprice)].
    + apply elem_of_app in Hin as [Hin|Hin]; [by left|].
      apply list_elem_of_singleton in Hin as ->. right. exists pr. simpl. by split.
    + right. rewrite lookup_insert in Hp'.
      destruct (decide (req_product item = product it)) as [Heq|].
      * injection Hp' as <-. exists pr. rewrite <- Heq. by split.
      * exists pr'. by split.
Qed.

Lemma offer_factor_bounds (p o : Q) :
  (0 <= p)%Q -> (0 <= o)%Q -> (o <= 100)%Q -> (0 <= p * (1 - o / 100) <= p)%Q.
Proof.
  intros. change (o / 100)%Q with (o * (1 # 100))%Q.
  assert (0 <= 1 - o * (1 # 100))%Q by lra. assert (1 - o * (1 # 100) <= 1)%Q by lra.
  generalize dependent (1 - o * (1 # 100))%Q. intros. split; nra.
Qed.

Lemma offer_factor_bounds_neg (p o : Q) :
  (p <= 0)%Q -> (0 <= o)%Q -> (o <= 100)%Q -> (p <= p * (1 - o / 100) <= 0)%Q.
Proof.
  intros. change (o / 100)%Q with (o * (1 # 100))%Q.
  assert (0 <= 1 - o * (1 # 100))%Q by lra. assert (1 - o * (1 # 100) <= 1)%Q by lra.
  generalize dependent (1 - o * (1 # 100))%Q. intros. split; nra.
Qed.

Lemma offer_factor_negative (p o : Q) :
  (0 < p)%Q -> (100 < o)%Q -> (p * (1 - o / 100) < 0)%Q.
Proof.
  intros. change (o / 100)%Q with (o * (1 # 100))%Q.
  assert (1 - o * (1 # 100) < 0)%Q by lra.
  generalize dependent (1 - o * (1 # 100))%Q. intros. nra.
Qed.

(** X17. After a successful PATCH /products/:id/offer, every line an
    order placed next holds for that product is priced between 0 and the
    product's price: in [[0, price]] for a non-negative price, in
    [[price, 0]] for a negative one (prices are not validated). *)
Theorem patch_offer_bounds_line_price (db db' db'' : DB) (v c : User) (pid : nat) (off : Q)
    (pr : Product) (its : list ReqItem) (addr : string) (oid : nat) (o : Order) :
  products db !! pid = Some pr ->
  patch_offer db v pid off = (db', inr tt) ->
  place_order db' c its addr oid = (db'', inr o) ->
  forall it, it ∈ items o -> product it = pid ->
    ((0 <= price pr)%Q -> (0 <= priceAtPurchase it <= price pr)%Q) /\
    ((price pr <= 0)%Q -> (price pr <= priceAtPurchase it <= 0)%Q).
Proof.
  intros Hpr. unfold patch_offer.
  destruct (role v); try discriminate.
  destruct (negb (Qle_bool 0 off) || negb (Qle_bool off 100)) eqn:Eoff; [discriminate|].
  apply orb_false_iff in Eoff as [E0 E100].
  apply negb_false_iff, Qle_bool_iff in E0, E100.
  rewrite Hpr. case_bool_decide; [|discriminate]. intros [= <-].
  unfold place_order. destruct (role c); try discriminate.
  destruct its as [|i0 its']; [discriminate|].
  destruct (place_items _ _ _ _) as [ps' [e|[ois tot]]] eqn:Epl; [discriminate|].
  simpl. destruct (orders db !! oid); [discriminate|]. intros [= _ <-] it Hit Hp. simpl in Hit.
  destruct (place_items_line_price _ _ _ _ _ _ _ Epl it Hit) as [Hin|(pr' & Hp' & Hpa)].
  { by apply not_elem_of_nil in Hin. }
  simpl in Hp'. rewrite Hp, lookup_insert_eq in Hp'. injection Hp' as <-. simpl in Hpa.
  rewrite Hpa. split; intros Hprice.
  - by apply offer_factor_bounds.
  - by apply offer_factor_bounds_neg.
Qed.

Lemma patch_offer_bounds_line_price_witness :
  mkOrderItem 1 1 (10 * (1 - 50 / 100)) ∈
    items (match (place_order (patch_offer example_db example_vendor 1 50).1
                    example_customer [mkReqItem 1 1] "addr" 3).2 with
           | inr o => o | inl _ => example_order pending ps_pending 0 end) /\
  (0 <= priceAtPurchase (mkOrderItem 1 1 (10 * (1 - 50 / 100))) <= 10)%Q.
Proof.
  assert (mkOrderItem 1 1 (10 * (1 - 50 / 100)) ∈
    items (match (place_order (patch_offer example_db example_vendor 1 50).1
                    example_customer [mkReqItem 1 1] "addr" 3).2 with
           | inr o => o | inl _ => example_order pending ps_pending 0 end)) as Hin
    by (vm_compute; constructor).
  split; [exact Hin|].
  apply (patch_offer_bounds_line_price example_db (patch_offer example_db example_vendor 1 50).1
           (place_order (patch_offer example_db example_vendor 1 50).1
              example_customer [mkReqItem 1 1] "addr" 3).1
           example_vendor example_customer 1 50 (mkProduct 10 20 5 7) [mkReqItem 1 1] "addr" 3
           (match (place_order (patch_offer example_db example_vendor 1 50).1
                     example_customer [mkReqItem 1 1] "addr" 3).2 with
            | inr o => o | inl _ => example_order pending ps_pending 0 end));
    try reflexivity.
  - exact Hin.
  - discriminate.
Defined.

(** X18. PUT /products/:id stores any offer: with an offer above 100 a
    customer's one-unit order of the product is accepted with a negative
    total. *)
Theorem put_offer_negative_total (db : DB) (u c : User) (pid : nat) (pr : Product) (off : Q)
    (addr : string) (oid : nat) :
  products db !! pid = Some pr -> role u <> role_customer -> product_match u pr = true ->
  (100 < off)%Q -> (0 < price pr)%Q -> (1 <= stock pr)%Z ->
  role c = role_customer -> orders db !! oid = None ->
  exists db' o,
    place_order (update_product db u pid (mkProductUpdate None (Some off) None)).1
      c [mkReqItem pid 1] addr oid = (db', inr o) /\ (total o < 0)%Q.
Proof.
  intros Hpr Hu Hm Hoff Hprice Hstock Hc Hoid.
  unfold update_product.
  destruct (role u) eqn:Er; [done| |];
    rewrite Hpr, Hm; unfold place_order; rewrite Hc; simpl;
    rewrite lookup_insert_eq; simpl;
    (destruct (stock pr <? 1)%Z eqn:Es; [apply Z.ltb_lt in Es; lia|]);
    rewrite Hoid; eexists _, _; (split; [reflexivity|]); simpl;
    change (inject_Z 1) with 1%Q;
    pose proof (offer_factor_negative _ _ Hprice Hoff); lra.
Qed.

Lemma put_offer_negative_total_witness :
  exists db' o,
    place_order (update_product example_db example_vendor 1 (mkProductUpdate None (Some 150%Q) None)).1
      example_customer [mkReqItem 1 1] "addr" 3 = (db', inr o) /\ (total o < 0)%Q.
Proof.
  apply (put_offer_negative_total example_db example_vendor example_customer 1
           (mkProduct 10 20 5 7) 150 "addr" 3); try reflexivity.
  - discriminate.
  - simpl. lia.
Defined.
